(** * gym-fanorona: the board state, its terminal/utility logic and its
      textual notation

    A shallow embedding of [gym_fanorona/envs/state.py] (class
    [FanoronaState]).  Python strings are lists of 8-bit characters, the two
    numpy grids are lists of rows, methods that read or write [self] are
    computations in a state-and-exception monad, and the static decoder is a
    function into an exception monad. *)

From Stdlib Require Import ZArith Ascii String.
From stdpp Require Import list strings.

Local Open Scope Z_scope.

(** ** Python values *)

(** A Python [str] whose characters have code points below 256. *)
Definition str := list ascii.

Definition py (s : string) : str := list_ascii_of_string s.

(** The exceptions the embedded code can raise. *)
Inductive exn :=
  | ValueError
  | KeyError
  | IndexError
  | InvalidPosition
  | InvalidPieceConversion.

Inductive Result (A : Type) :=
  | Ok (a : A)
  | Raise (e : exn).
Arguments Ok {A} a.
Arguments Raise {A} e.

Definition rbind {A B} (m : Result A) (k : A -> Result B) : Result B :=
  match m with
  | Ok a => k a
  | Raise e => Raise e
  end.

Declare Scope result_scope.
Delimit Scope result_scope with result.
Notation "x <- m ;; k" := (rbind m (fun x => k))
  (at level 100, m at next level, right associativity) : result_scope.

(** [fails r]: the computation ended in an exception. *)
Definition fails {A} (r : Result A) : Prop := exists e, r = Raise e.

(** How Python and numpy normalise a subscript against a length: a negative
    index counts from the end, anything outside [-len, len) raises
    IndexError. *)
Definition norm_index (len : nat) (i : Z) : Result nat :=
  let n := Z.of_nat len in
  let j := if i <? 0 then i + n else i in
  if (0 <=? j) && (j <? n) then Ok (Z.to_nat j) else Raise IndexError.

(** The subscription [l[i]]. *)
Definition py_index {A} (l : list A) (i : Z) : Result A :=
  (j <- norm_index (length l) i ;;
   match l !! j with
   | Some x => Ok x
   | None => Raise IndexError
   end)%result.

(** The assignment [g[r][c] = v] on a grid. *)
Definition grid_set {A} (g : list (list A)) (r c : Z) (v : A)
  : Result (list (list A)) :=
  (i <- norm_index (length g) r ;;
   match g !! i with
   | Some row =>
       j <- norm_index (length row) c ;;
       Ok (<[i := <[j := v]> row]> g)
   | None => Raise IndexError
   end)%result.

(** ** Constants (constants.py is not among the sources) *)

(** Modelled from the spec: the constants file is missing; the spec fixes the
    grid to 5 rows. *)
Definition BOARD_ROWS : nat := 5.

(** Modelled from the spec: the constants file is missing; the spec fixes the
    grid to 9 columns. *)
Definition BOARD_COLS : nat := 9.

(** ** Vocabulary (enums.py is not among the sources) *)

Module Piece.

(** Modelled from the spec: the enumeration Piece is missing; the spec gives
    its three members. *)
Inductive t := WHITE | BLACK | EMPTY.

Definition eqb (a b : t) : bool :=
  match a, b with
  | WHITE, WHITE | BLACK, BLACK | EMPTY, EMPTY => true
  | _, _ => false
  end.

(** Modelled from the spec: [Piece.other] is missing; it swaps WHITE and
    BLACK and fails on EMPTY. *)
Definition other (p : t) : Result t :=
  match p with
  | WHITE => Ok BLACK
  | BLACK => Ok WHITE
  | EMPTY => Raise InvalidPieceConversion
  end.

(** Modelled from the spec: [Piece.__str__] is missing; the spec gives the
    letters of the two sides, the text of EMPTY is left open. *)
Definition to_str (empty_str : str) (p : t) : str :=
  match p with
  | WHITE => py "W"
  | BLACK => py "B"
  | EMPTY => empty_str
  end.

End Piece.

Module Direction.

(** Modelled from the spec: the enumeration Direction is missing; the spec
    gives eight compass directions and a sentinel, which state.py calls
    [Direction.X]. *)
Inductive t := SW | S | SE | W | X | E | NW | N | NE.

Definition eqb (a b : t) : bool :=
  match a, b with
  | SW, SW | S, S | SE, SE | W, W | X, X | E, E | NW, NW | N, N | NE, NE =>
      true
  | _, _ => false
  end.

(** The member name, as [Direction[name]] looks it up. *)
Definition name (d : t) : str :=
  py match d with
     | SW => "SW" | S => "S" | SE => "SE"
     | W => "W" | X => "X" | E => "E"
     | NW => "NW" | N => "N" | NE => "NE"
     end.

Definition members : list t := [SW; S; SE; W; X; E; NW; N; NE].

(** [Direction[s]]: lookup of a member by name, KeyError when there is
    none. *)
Definition of_name (s : str) : Result t :=
  match find (fun d => bool_decide (name d = s)) members with
  | Some d => Ok d
  | None => Raise KeyError
  end.

(** Modelled from the spec: [Direction.__str__] is missing; the encoder
    emits the direction's name, or [-] for the sentinel. *)
Definition to_str (d : t) : str :=
  match d with
  | X => py "-"
  | _ => name d
  end.

End Direction.

Module Reward.

(** Modelled from the spec: the enumeration Reward is missing; the spec
    gives its three outcome tags. *)
Inductive t := WIN | LOSS | DRAW.

End Reward.

(** [Union[Reward, int]]: what [utility] returns. *)
Inductive Utility :=
  | Tag (r : Reward.t)
  | Score (z : Z).

(** ** Positions (position.py is not among the sources) *)

Module Position.

(** The two attributes [get_piece] reads. *)
Record t := mk { row : Z; col : Z }.

Definition in_grid (p : t) : bool :=
  (0 <=? row p) && (row p <? Z.of_nat BOARD_ROWS) &&
  (0 <=? col p) && (col p <? Z.of_nat BOARD_COLS).

(** Modelled from the spec: the constructor from a pair of indices is
    missing; out-of-range indices fail with InvalidPosition. *)
Definition of_coords (rc : Z * Z) : Result t :=
  let p := mk rc.1 rc.2 in
  if in_grid p then Ok p else Raise InvalidPosition.

Definition to_coords (p : t) : Z * Z := (row p, col p).

(** Modelled from the spec: [to_human] is missing; the label is the column
    letter (A for column 0) followed by the one-based row number. *)
Definition to_human (p : t) : str :=
  [ascii_of_nat (65 + Z.to_nat (col p)); ascii_of_nat (49 + Z.to_nat (row p))].

(** Modelled from the spec: the constructor from a human label is missing;
    a label that is not a column letter and a row number of the grid fails
    with InvalidPosition. *)
Definition of_human (s : str) : Result t :=
  match s with
  | [c; r] =>
      of_coords (Z.of_nat (nat_of_ascii r) - 49, Z.of_nat (nat_of_ascii c) - 65)
  | _ => Raise InvalidPosition
  end.

(** Modelled from the spec: [pos_range] is missing; it yields every grid
    position once, in row-major order. *)
Definition pos_range : list t :=
  r ← seq 0 BOARD_ROWS; c ← seq 0 BOARD_COLS; [mk (Z.of_nat r) (Z.of_nat c)].

End Position.

(** ** The board state *)

Record FanoronaState := mkState {
  board_state : list (list Piece.t);
  turn_to_play : Piece.t;
  last_dir : Direction.t;
  visited : list (list bool);
  half_moves : Z
}.

(** A grid of the shape numpy gives it: [BOARD_ROWS] rows of [BOARD_COLS]
    cells. *)
Definition grid_shape {A} (g : list (list A)) : Prop :=
  length g = BOARD_ROWS /\ Forall (fun r => length r = BOARD_COLS) g.

Definition is_side (p : Piece.t) : Prop := p = Piece.WHITE \/ p = Piece.BLACK.

(** A valid board state in the sense of the data model. *)
Record valid_state (s : FanoronaState) : Prop := {
  valid_board : grid_shape (board_state s);
  valid_turn : is_side (turn_to_play s);
  valid_visited : grid_shape (visited s)
}.

(** ** Methods: computations over [self] that may raise *)

Definition Method (A : Type) := FanoronaState -> Result A * FanoronaState.

Definition ret {A} (a : A) : Method A := fun s => (Ok a, s).

Definition bind {A B} (m : Method A) (k : A -> Method B) : Method B :=
  fun s =>
    match m s with
    | (Ok a, s') => k a s'
    | (Raise e, s') => (Raise e, s')
    end.

(** Reading an attribute of [self]. *)
Definition gets {A} (f : FanoronaState -> A) : Method A :=
  fun s => (Ok (f s), s).

(** Storing into [self.visited]. *)
Definition set_visited (v : list (list bool)) : Method unit :=
  fun s =>
    (Ok tt,
     mkState (board_state s) (turn_to_play s) (last_dir s) v (half_moves s)).

(** A computation on local values only. *)
Definition lift {A} (r : Result A) : Method A := fun s => (r, s).

Declare Scope method_scope.
Delimit Scope method_scope with method.
Notation "x <- m ;; k" := (bind m (fun x => k))
  (at level 100, m at next level, right associativity) : method_scope.

(** The value a method call returns and the state it leaves behind. *)
Definition value {A} (m : Method A) (s : FanoronaState) : Result A := (m s).1.

Definition after {A} (m : Method A) (s : FanoronaState) : FanoronaState :=
  (m s).2.

(** ** String helpers of the codec *)

Definition ascii_eqb (a b : ascii) : bool := bool_decide (a = b).

(** The characters below 256 that [str.split()] treats as separators: tab
    to carriage return, the four information separators, the space, NEL
    (U+0085) and the no-break space (U+00A0). *)
Definition is_space (c : ascii) : bool :=
  let n := nat_of_ascii c in
  (Nat.leb 9 n && Nat.leb n 13) || (Nat.leb 28 n && Nat.leb n 32)
  || Nat.eqb n 133 || Nat.eqb n 160.

(** [s.split()]: the maximal runs of non-space characters. *)
Fixpoint words_from (s : str) (cur : str) : list str :=
  match s with
  | [] => match cur with [] => [] | _ => [cur] end
  | c :: r =>
      if is_space c
      then match cur with
           | [] => words_from r []
           | _ => cur :: words_from r []
           end
      else words_from r (cur ++ [c])
  end.

Definition py_split (s : str) : list str := words_from s [].

(** [s.split(sep)] for a one-character separator. *)
Fixpoint split_from (sep : ascii) (s : str) (cur : str) : list str :=
  match s with
  | [] => [cur]
  | c :: r =>
      if ascii_eqb c sep then cur :: split_from sep r []
      else split_from sep r (cur ++ [c])
  end.

Definition split_on (sep : ascii) (s : str) : list str := split_from sep s [].

(** [sep.join(l)]. *)
Fixpoint join (sep : str) (l : list str) : str :=
  match l with
  | [] => []
  | [x] => x
  | x :: rest => x ++ sep ++ join sep rest
  end.

(** [s.rstrip(c)] for a one-character set. *)
Fixpoint rstrip (c : ascii) (s : str) : str :=
  match s with
  | [] => []
  | x :: r =>
      match rstrip c r with
      | [] => if ascii_eqb x c then [] else [x]
      | r' => x :: r'
      end
  end.

Definition digit_char (d : Z) : ascii := ascii_of_nat (48 + Z.to_nat d).

Fixpoint digits_of (fuel : nat) (n : Z) (acc : str) : str :=
  match fuel with
  | O => acc
  | Datatypes.S f =>
      let acc' := digit_char (n mod 10) :: acc in
      if n / 10 =? 0 then acc' else digits_of f (n / 10) acc'
  end.

(** The decimal digits of a natural number; a number has no more decimal
    digits than binary ones, which bounds the recursion. *)
Definition decimal (n : Z) : str :=
  digits_of (Datatypes.S (Z.to_nat (Z.log2 n))) n [].

(** [str(z)] on an [int]. *)
Definition py_str_int (z : Z) : str :=
  if z <? 0 then "-"%char :: decimal (- z) else decimal z.

Definition digit_val (c : ascii) : option Z :=
  let n := nat_of_ascii c in
  if Nat.leb 48 n && Nat.leb n 57 then Some (Z.of_nat n - 48) else None.

(** The digits of an [int] literal: single underscores may separate them. *)
Fixpoint int_digits (s : str) (acc : Z) (after_digit : bool) : Result Z :=
  match s with
  | [] => if after_digit then Ok acc else Raise ValueError
  | c :: r =>
      match digit_val c with
      | Some d => int_digits r (10 * acc + d) true
      | None =>
          if ascii_eqb c "_" && after_digit then int_digits r acc false
          else Raise ValueError
      end
  end.

(** [int(s)] on a string without white space (the decoder applies it to a
    field of [split()] and to single characters of such a field): an optional
    sign, then digits; ValueError otherwise. *)
Definition py_int (s : str) : Result Z :=
  match s with
  | c :: r =>
      if ascii_eqb c "-" then (n <- int_digits r 0 false ;; Ok (- n))%result
      else if ascii_eqb c "+" then int_digits r 0 false
      else int_digits s 0 false
  | [] => Raise ValueError
  end.

Section Queries.

(** [MOVE_LIMIT] of constants.py, which is not among the sources. *)
Variable MOVE_LIMIT : Z.

Local Open Scope method_scope.

(** [get_piece]: [Piece(self.board_state[position.row][position.col])]. *)
Definition get_piece (position : Position.t) : Method Piece.t :=
  g <- gets board_state ;;
  r <- lift (py_index g (Position.row position)) ;;
  lift (py_index r (Position.col position)).

(** [count]: [sum([1 for pos in pos_range() if self.get_piece(pos) == side])]. *)
Fixpoint count_ones (ps : list Position.t) (side : Piece.t) : Method (list Z) :=
  match ps with
  | [] => ret []
  | pos :: rest =>
      p <- get_piece pos ;;
      l <- count_ones rest side ;;
      ret (if Piece.eqb p side then 1 :: l else l)
  end.

Definition count (side : Piece.t) : Method Z :=
  l <- count_ones Position.pos_range side ;;
  ret (fold_left Z.add l 0).

Definition other_side : Method Piece.t :=
  t <- gets turn_to_play ;;
  lift (Piece.other t).

Definition in_capturing_seq : Method bool :=
  d <- gets last_dir ;;
  ret (negb (Direction.eqb d Direction.X)).

(** [piece_exists]: the scan returns at the first match. *)
Fixpoint piece_exists_from (ps : list Position.t) (piece : Piece.t)
  : Method bool :=
  match ps with
  | [] => ret false
  | pos :: rest =>
      p <- get_piece pos ;;
      if Piece.eqb p piece then ret true else piece_exists_from rest piece
  end.

Definition piece_exists (piece : Piece.t) : Method bool :=
  piece_exists_from Position.pos_range piece.

Definition is_done : Method bool :=
  hm <- gets half_moves ;;
  if MOVE_LIMIT <=? hm then ret true
  else
    t <- gets turn_to_play ;;
    own_piece_exists <- piece_exists t ;;
    o <- other_side ;;
    other_piece_exists <- piece_exists o ;;
    if own_piece_exists && other_piece_exists then ret false else ret true.

Definition utility (side : Piece.t) : Method Utility :=
  hm <- gets half_moves ;;
  if MOVE_LIMIT <=? hm then ret (Tag Reward.DRAW)
  else
    done <- is_done ;;
    if done then
      t <- gets turn_to_play ;;
      own <- piece_exists t ;;
      winner <- (if own then ret t else other_side) ;;
      if Piece.eqb side winner then ret (Tag Reward.WIN)
      else ret (Tag Reward.LOSS)
    else
      a <- count side ;;
      o <- lift (Piece.other side) ;;
      b <- count o ;;
      ret (Score (a - b)).

(** [reset_visited_pos]: one store into the visited grid per position. *)
Fixpoint reset_from (ps : list Position.t) : Method unit :=
  match ps with
  | [] => ret tt
  | pos :: rest =>
      let '(row, col) := Position.to_coords pos in
      v <- gets visited ;;
      v' <- lift (grid_set v row col false) ;;
      _ <- set_visited v' ;;
      reset_from rest
  end.

Definition reset_visited_pos : Method unit := reset_from Position.pos_range.

End Queries.

Section Codec.

(** What [str(Piece.EMPTY)] is; enums.py is not among the sources. *)
Variable EMPTY_str : str.

(** The member of Piece that numpy's zero converts to, which fills a fresh
    grid; enums.py is not among the sources. *)
Variable Piece0 : Piece.t.

Local Open Scope result_scope.

(** *** Encoder *)

(** The pending run of empty cells, written out before a piece, at the end
    of a row and at the end of the board. *)
Definition flush (board_string : str) (count : Z) : str * Z :=
  if 0 <? count then (board_string ++ py_str_int count, 0)
  else (board_string, count).

(** The inner loop of [get_board_str] over the cells of a row. *)
Fixpoint encode_cells (row : list Piece.t) (board_string : str) (count : Z)
  : str * Z :=
  match row with
  | [] => (board_string, count)
  | col :: rest =>
      let col_str := Piece.to_str EMPTY_str col in
      if Piece.eqb col Piece.EMPTY then encode_cells rest board_string (count + 1)
      else
        let '(board_string, count) := flush board_string count in
        encode_cells rest (board_string ++ col_str) count
  end.

(** The outer loop over the rows. *)
Fixpoint encode_rows (rows : list (list Piece.t)) (board_string : str)
  (count : Z) : str * Z :=
  match rows with
  | [] => (board_string, count)
  | row :: rest =>
      let '(board_string, count) := encode_cells row board_string count in
      let '(board_string, count) := flush board_string count in
      encode_rows rest (board_string ++ py "/") count
  end.

Definition encode_board (g : list (list Piece.t)) : str :=
  let '(board_string, count) := encode_rows g [] 0 in
  let board_string := rstrip "/" board_string in
  if 0 <? count then board_string ++ py_str_int count else board_string.

(** The labels of the visited cells of one row, then of all rows. *)
Fixpoint visited_row (row_idx col_idx : nat) (row : list bool)
  : Result (list str) :=
  match row with
  | [] => Ok []
  | col :: rest =>
      if col then
        p <- Position.of_coords (Z.of_nat row_idx, Z.of_nat col_idx) ;;
        l <- visited_row row_idx (Datatypes.S col_idx) rest ;;
        Ok (Position.to_human p :: l)
      else visited_row row_idx (Datatypes.S col_idx) rest
  end.

Fixpoint visited_rows (row_idx : nat) (v : list (list bool))
  : Result (list str) :=
  match v with
  | [] => Ok []
  | row :: rest =>
      l1 <- visited_row row_idx 0 row ;;
      l2 <- visited_rows (Datatypes.S row_idx) rest ;;
      Ok (l1 ++ l2)
  end.

Definition get_board_str : Method str :=
  (g <- gets board_state ;;
   let board_string := encode_board g in
   t <- gets turn_to_play ;;
   let turn_to_play_str := Piece.to_str EMPTY_str t in
   d <- gets last_dir ;;
   let last_dir_str := Direction.to_str d in
   v <- gets visited ;;
   visited_pos_list <- lift (visited_rows 0 v) ;;
   let visited_pos_str :=
     match visited_pos_list with
     | [] => py "-"
     | _ => join (py ",") visited_pos_list
     end in
   hm <- gets half_moves ;;
   ret (join (py " ")
          [board_string; turn_to_play_str; last_dir_str; visited_pos_str;
           py_str_int hm]))%method.

(** *** Decoder *)

(** [for col_board in range(...): board_state[row][col_board] = EMPTY]; the
    loop variable keeps its last value. *)
Fixpoint fill_empty (g : list (list Piece.t)) (row : nat) (cols : list nat)
  (col_board : nat) : Result (list (list Piece.t) * nat) :=
  match cols with
  | [] => Ok (g, col_board)
  | c :: rest =>
      g' <- grid_set g (Z.of_nat row) (Z.of_nat c) Piece.EMPTY ;;
      fill_empty g' row rest c
  end.

(** The loop over the characters of one row string. *)
Fixpoint process_row (g : list (list Piece.t)) (row : nat) (row_content : str)
  (col_board : nat) : Result (list (list Piece.t)) :=
  match row_content with
  | [] => Ok g
  | cell :: rest =>
      if ascii_eqb cell "W" then
        g' <- grid_set g (Z.of_nat row) (Z.of_nat col_board) Piece.WHITE ;;
        process_row g' row rest (Datatypes.S col_board)
      else if ascii_eqb cell "B" then
        g' <- grid_set g (Z.of_nat row) (Z.of_nat col_board) Piece.BLACK ;;
        process_row g' row rest (Datatypes.S col_board)
      else
        n <- py_int [cell] ;;
        gc <- fill_empty g row (seq col_board (Z.to_nat n)) col_board ;;
        process_row gc.1 row rest (Datatypes.S gc.2)
  end.

(** The loop over the enumerated row strings. *)
Fixpoint process_rows (g : list (list Piece.t)) (row : nat) (rows : list str)
  : Result (list (list Piece.t)) :=
  match rows with
  | [] => Ok g
  | row_content :: rest =>
      g' <- process_row g row row_content 0 ;;
      process_rows g' (Datatypes.S row) rest
  end.

Definition process_board_state_str (board_state_str : str)
  : Result (list (list Piece.t)) :=
  process_rows (replicate BOARD_ROWS (replicate BOARD_COLS Piece0)) 0
    (split_on "/" board_state_str).

Fixpoint mark_visited (v : list (list bool)) (visited_pos_list : list str)
  : Result (list (list bool)) :=
  match visited_pos_list with
  | [] => Ok v
  | human_pos :: rest =>
      p <- Position.of_human human_pos ;;
      let '(row, col) := Position.to_coords p in
      v' <- grid_set v row col true ;;
      mark_visited v' rest
  end.

Definition process_visited_pos_str (visited_pos_str : str)
  : Result (list (list bool)) :=
  let visited := replicate BOARD_ROWS (replicate BOARD_COLS false) in
  if bool_decide (visited_pos_str = py "-") then Ok visited
  else mark_visited visited (split_on "," visited_pos_str).

(** [set_from_board_str]: the tuple assignment raises ValueError unless
    [split()] gives five fields. *)
Definition set_from_board_str (board_string : str) : Result FanoronaState :=
  match py_split board_string with
  | [board_state_str; turn_to_play_str; last_dir_str; visited_pos_str;
     half_moves_str] =>
      board <- process_board_state_str board_state_str ;;
      let turn :=
        if bool_decide (turn_to_play_str = py "W") then Piece.WHITE
        else Piece.BLACK in
      dir <- (if bool_decide (last_dir_str = py "-") then Ok Direction.X
              else Direction.of_name last_dir_str) ;;
      vis <- process_visited_pos_str visited_pos_str ;;
      hm <- py_int half_moves_str ;;
      Ok (mkState board turn dir vis hm)
  | _ => Raise ValueError
  end.

End Codec.

(** ** Specification-level views of a grid *)

(** The cell at row [r], column [c], when there is one. *)
Definition cell_at {A} (g : list (list A)) (r c : nat) : option A :=
  match g !! r with
  | Some row => row !! c
  | None => None
  end.

(** Some cell of the grid holds [p]. *)
Definition has_piece (g : list (list Piece.t)) (p : Piece.t) : Prop :=
  In p (concat g).

(** The number of cells that hold [p]. *)
Definition count_cells (g : list (list Piece.t)) (p : Piece.t) : Z :=
  Z.of_nat (length (List.filter (fun c => Piece.eqb c p) (concat g))).

(** A method that leaves [self] as it found it, whatever it returns. *)
Definition read_only {A} (m : Method A) : Prop := forall s, after m s = s.

(** A state to run the theorems on: the opening position, after 3 half
    moves, in the middle of a capturing sequence. *)
Definition sample_state : FanoronaState :=
  let w := Piece.WHITE in
  let b := Piece.BLACK in
  let e := Piece.EMPTY in
  let f := false in
  mkState
    [[w; w; w; w; w; w; w; w; w];
     [w; w; w; w; w; w; w; w; w];
     [b; w; b; w; e; b; w; b; w];
     [b; b; b; b; b; b; b; b; b];
     [b; b; b; b; b; b; b; b; b]]
    Piece.BLACK Direction.NE
    [[f; f; f; f; f; f; f; f; f];
     [f; f; f; true; f; f; f; f; f];
     [f; f; f; f; true; f; f; f; f];
     [f; f; f; f; f; f; f; f; f];
     [f; f; f; f; f; f; f; f; f]]
    3.

(** ** Specification-level views of the notation *)

(** [has_piece] as a boolean. *)
Definition has_piece_b (g : list (list Piece.t)) (p : Piece.t) : bool :=
  existsb (fun c => Piece.eqb c p) (concat g).

(** A field [split()] gives back whole: not empty, no white space. *)
Definition is_word (w : str) : Prop :=
  w <> [] /\ Forall (fun c => is_space c = false) w.

(** The text of a pending run of empty cells. *)
Definition run_str (pending : Z) : str :=
  if 0 <? pending then py_str_int pending else [].

(** The row encoding in the spec's words: consecutive EMPTY cells are
    counted, and the pending count is written before a piece letter and at the
    end of the row. *)
Fixpoint rle_row (e : str) (row : list Piece.t) (pending : Z) : str :=
  match row with
  | [] => run_str pending
  | Piece.EMPTY :: rest => rle_row e rest (pending + 1)
  | p :: rest => run_str pending ++ Piece.to_str e p ++ rle_row e rest 0
  end.

(** The characters a row of the grid is written with. *)
Definition row_char (c : ascii) : Prop :=
  c = "W"%char \/ c = "B"%char \/ exists d, 1 <= d <= 9 /\ c = digit_char d.

(** The label of a position of the grid. *)
Definition grid_label (l : str) : Prop :=
  exists p, Position.in_grid p = true /\ l = Position.to_human p.

(** The columns a character of a row string takes as the decoder reads it:
    a piece letter one, a digit as many as its value. *)
Definition cell_width (c : ascii) : nat :=
  if ascii_eqb c "W" || ascii_eqb c "B" then 1%nat
  else match digit_val c with
       | Some d => Z.to_nat d
       | None => 0%nat
       end.

(** The columns a row string takes, character by character. *)
Fixpoint row_width (s : str) : nat :=
  match s with
  | [] => 0%nat
  | c :: r => (cell_width c + row_width r)%nat
  end.

(** The columns of a row string in the grammar of the spec: a piece letter
    takes one column, a decimal digit string as many as the number it
    writes. *)
Fixpoint grammar_width (s : str) (run : Z) : Z :=
  match s with
  | [] => run
  | c :: r =>
      match digit_val c with
      | Some d => grammar_width r (10 * run + d)
      | None => run + 1 + grammar_width r 0
      end
  end.

(** A character the row loop reads without ValueError: W, B or a digit. *)
Definition is_token (c : ascii) : bool :=
  ascii_eqb c "W" || ascii_eqb c "B"
  || match digit_val c with
     | Some _ => true
     | None => false
     end.

(** Whether reading a row string from column [col] stores beyond the last
    column, the cursor moving as in the decoder: by one for W, B and 0, by d
    for a digit d from 1 to 9.  A character that is no token stops the
    reading before any such store. *)
Fixpoint row_overruns (s : str) (col : nat) : bool :=
  match s with
  | [] => false
  | c :: r =>
      if ascii_eqb c "W" || ascii_eqb c "B" then
        Nat.leb BOARD_COLS col || row_overruns r (Datatypes.S col)
      else match digit_val c with
           | Some d =>
               match Z.to_nat d with
               | O => row_overruns r (Datatypes.S col)
               | n => Nat.ltb BOARD_COLS (col + n) || row_overruns r (col + n)
               end
           | None => false
           end
  end.

(** The exceptions the decoder raises. *)
Definition decoder_exn (e : exn) : Prop :=
  e = ValueError \/ e = KeyError \/ e = IndexError \/ e = InvalidPosition.

(** The malformed notations of C5, on the fields [split()] gives. *)
Inductive malformed : list str -> Prop :=
  | wrong_field_count fields :
      length fields <> 5%nat -> malformed fields
  | unknown_direction b t d v h :
      d <> py "-" -> (forall x, Direction.name x <> d) ->
      malformed [b; t; d; v; h]
  | unparsable_half_moves b t d v h :
      fails (py_int h) -> malformed [b; t; d; v; h]
  | invalid_label b t d v h l :
      v <> py "-" -> In l (split_on "," v) -> fails (Position.of_human l) ->
      malformed [b; t; d; v; h]
  | row_overrun b t d v h row :
      In row (split_on "/" b) -> (BOARD_COLS < row_width row)%nat ->
      malformed [b; t; d; v; h]
  | row_store_overrun b t d v h row :
      In row (split_on "/" b) -> row_overruns row 0 = true ->
      malformed [b; t; d; v; h].

(** The first malformed field, in the order the decoder reads the fields
    (board, direction, visited, half moves), with the exception it
    raises. *)
Inductive malformed_first (Piece0 : Piece.t) : list str -> exn -> Prop :=
  | first_field_count fields :
      length fields <> 5%nat -> malformed_first Piece0 fields ValueError
  | first_row_overrun b t d v h row :
      forallb (forallb is_token) (split_on "/" b) = true ->
      In row (split_on "/" b) -> row_overruns row 0 = true ->
      malformed_first Piece0 [b; t; d; v; h] IndexError
  | first_direction b t d v h g :
      process_board_state_str Piece0 b = Ok g ->
      d <> py "-" -> (forall x, Direction.name x <> d) ->
      malformed_first Piece0 [b; t; d; v; h] KeyError
  | first_label b t d v h g dir l :
      process_board_state_str Piece0 b = Ok g ->
      (if bool_decide (d = py "-") then Ok Direction.X
       else Direction.of_name d) = Ok dir ->
      v <> py "-" -> In l (split_on "," v) -> fails (Position.of_human l) ->
      malformed_first Piece0 [b; t; d; v; h] InvalidPosition
  | first_half_moves b t d v h g dir vis :
      process_board_state_str Piece0 b = Ok g ->
      (if bool_decide (d = py "-") then Ok Direction.X
       else Direction.of_name d) = Ok dir ->
      process_visited_pos_str v = Ok vis ->
      fails (py_int h) ->
      malformed_first Piece0 [b; t; d; v; h] ValueError.

(** The length of row [r] of a grid, 0 when there is no such row. *)
Definition row_len {A} (G : list (list A)) (r : nat) : nat :=
  match G !! r with
  | Some cur => length cur
  | None => 0%nat
  end.

(** ** The remaining methods of the class *)

(** [__str__]: the notation of the state. *)
Definition __str__ (EMPTY_str : str) : Method str := get_board_str EMPTY_str.

(** [__repr__]: the f-string around [str(self)]. *)
Definition __repr__ (EMPTY_str : str) : Method str :=
  (s <- __str__ EMPTY_str ;;
   ret (py "<FanoronaState: " ++ s ++ py ">"))%method.

(** ** Further specification-level views *)

(** The state with another visited grid. *)
Definition with_visited (s : FanoronaState) (v : list (list bool))
  : FanoronaState :=
  mkState (board_state s) (turn_to_play s) (last_dir s) v (half_moves s).

(** A method that neither reads nor writes [self.visited]. *)
Definition ignores_visited {A} (m : Method A) : Prop :=
  forall s v, m (with_visited s v) = ((m s).1, with_visited (m s).2 v).

(** The utility seen from the other side. *)
Definition negate (u : Utility) : Utility :=
  match u with
  | Tag Reward.WIN => Tag Reward.LOSS
  | Tag Reward.LOSS => Tag Reward.WIN
  | Tag Reward.DRAW => Tag Reward.DRAW
  | Score z => Score (- z)
  end.

(** Two grids with as many rows, row by row as long. *)
Definition same_shape {A} (G G' : list (list A)) : Prop :=
  length G' = length G /\ forall i, row_len G' i = row_len G i.

(** A row filled up to the width of the board. *)
Definition pad_row {A} (x : A) (row : list A) : list A :=
  row ++ replicate (BOARD_COLS - length row) x.

(** Rows filled up to a whole board. *)
Definition pad_board {A} (x : A) (rows : list (list A)) : list (list A) :=
  map (pad_row x) rows
    ++ replicate (BOARD_ROWS - length rows) (replicate BOARD_COLS x).

(** The five fields of the notation of a state whose visited cells have the
    labels [labels]. *)
Definition notation_fields (e : str) (s : FanoronaState) (labels : list str)
  : list str :=
  [encode_board e (board_state s);
   Piece.to_str e (turn_to_play s);
   Direction.to_str (last_dir s);
   match labels with [] => py "-" | _ => join (py ",") labels end;
   py_str_int (half_moves s)].

(** The cells a row string stands for as the decoder reads it, character by
    character: W and B a piece, a digit that many EMPTY cells. *)
Fixpoint expand_row (s : str) : list Piece.t :=
  match s with
  | [] => []
  | c :: r =>
      (if ascii_eqb c "W" then [Piece.WHITE]
       else if ascii_eqb c "B" then [Piece.BLACK]
       else replicate (cell_width c) Piece.EMPTY)
      ++ expand_row r
  end.

(** ** Basic facts *)

Lemma Piece_eqb_eq a b : Piece.eqb a b = true <-> a = b.
Proof. destruct a, b; simpl; split; congruence. Qed.

Lemma length9_inv {A} (l : list A) :
  length l = 9%nat -> exists a b c d e f g h i, l = [a; b; c; d; e; f; g; h; i].
Proof.
  intros H. do 9 (destruct l as [|? l]; [discriminate|]).
  destruct l; [|discriminate]. eauto 10.
Qed.

Lemma grid_shape_inv {A} (g : list (list A)) :
  grid_shape g ->
  exists r0 r1 r2 r3 r4, g = [r0; r1; r2; r3; r4] /\
    length r0 = 9%nat /\ length r1 = 9%nat /\ length r2 = 9%nat /\
    length r3 = 9%nat /\ length r4 = 9%nat.
Proof.
  intros [Hl Hf]. unfold BOARD_ROWS, BOARD_COLS in *.
  do 5 (destruct g as [|? g]; [discriminate|]).
  destruct g; [|discriminate].
  repeat match goal with
         | H : Forall _ (_ :: _) |- _ => apply Forall_cons_1 in H; destruct H
         end.
  eauto 12.
Qed.

(** Unfolds a well-shaped grid into its 45 cells. *)
Ltac explode_grid H :=
  let r0 := fresh "r" in let r1 := fresh "r" in let r2 := fresh "r" in
  let r3 := fresh "r" in let r4 := fresh "r" in
  let E := fresh "E" in
  apply grid_shape_inv in H;
  destruct H as (r0 & r1 & r2 & r3 & r4 & E & H);
  repeat match goal with
         | H' : _ /\ _ |- _ => destruct H'
         end;
  repeat match goal with
         | H' : length ?r = 9%nat |- _ =>
             apply length9_inv in H';
             destruct H' as (? & ? & ? & ? & ? & ? & ? & ? & ? & ->)
         end.

(** Validity of a concrete state, by evaluation. *)
Ltac valid_by_evaluation :=
  split; [| first [left; reflexivity | right; reflexivity] |];
    (split; [reflexivity | repeat constructor]).

(** ** Read-only methods *)

Lemma read_only_ret {A} (a : A) : read_only (ret a).
Proof. intros s. reflexivity. Qed.

Lemma read_only_gets {A} (f : FanoronaState -> A) : read_only (gets f).
Proof. intros s. reflexivity. Qed.

Lemma read_only_lift {A} (r : Result A) : read_only (lift r).
Proof. intros s. reflexivity. Qed.

Lemma read_only_bind {A B} (m : Method A) (k : A -> Method B) :
  read_only m -> (forall a, read_only (k a)) -> read_only (bind m k).
Proof.
  intros Hm Hk s. unfold after, bind.
  specialize (Hm s). unfold after in Hm.
  destruct (m s) as [[a|e] s']; simpl in *; subst s'; [apply Hk | reflexivity].
Qed.

Lemma read_only_if {A} (b : bool) (m1 m2 : Method A) :
  read_only m1 -> read_only m2 -> read_only (if b then m1 else m2).
Proof. by destruct b. Qed.

Create HintDb frame.
#[local] Hint Resolve read_only_ret read_only_gets read_only_lift
  read_only_bind read_only_if : frame.

Lemma read_only_get_piece pos : read_only (get_piece pos).
Proof. unfold get_piece. auto 10 with frame. Qed.
#[local] Hint Resolve read_only_get_piece : frame.

Lemma read_only_count_ones ps side : read_only (count_ones ps side).
Proof. induction ps; simpl; auto 10 with frame. Qed.
#[local] Hint Resolve read_only_count_ones : frame.

Lemma read_only_count side : read_only (count side).
Proof. unfold count. auto 10 with frame. Qed.

Lemma read_only_piece_exists_from ps piece :
  read_only (piece_exists_from ps piece).
Proof.
  induction ps; simpl; auto with frame.
Qed.

Lemma read_only_piece_exists piece : read_only (piece_exists piece).
Proof. apply read_only_piece_exists_from. Qed.

Lemma read_only_other_side : read_only other_side.
Proof. unfold other_side. auto with frame. Qed.
#[local] Hint Resolve read_only_count read_only_piece_exists
  read_only_other_side : frame.

Lemma read_only_is_done L : read_only (is_done L).
Proof.
  unfold is_done.
  repeat (first [ apply read_only_bind; [auto with frame | intros ]
                | apply read_only_if | solve [auto with frame] ]).
Qed.
#[local] Hint Resolve read_only_is_done : frame.

Lemma read_only_utility L side : read_only (utility L side).
Proof.
  unfold utility.
  repeat (first [ apply read_only_bind; [auto with frame | intros ]
                | apply read_only_if | solve [auto with frame] ]).
Qed.

Lemma read_only_get_board_str e : read_only (get_board_str e).
Proof.
  unfold get_board_str.
  repeat (first [ apply read_only_bind; [auto with frame | intros ]
                | apply read_only_if | solve [auto with frame] ]).
Qed.

(** C10: every query (get_piece, count, piece_exists, is_done, utility and
    the encoder get_board_str) leaves the five fields of the state as they
    were: the state after the call is the state before it, also when the call
    raises. *)
Theorem queries_leave_state_unchanged :
  forall (MOVE_LIMIT : Z) (EMPTY_str : str) (s : FanoronaState)
         (pos : Position.t) (side : Piece.t),
    after (get_piece pos) s = s /\
    after (count side) s = s /\
    after (piece_exists side) s = s /\
    after (is_done MOVE_LIMIT) s = s /\
    after (utility MOVE_LIMIT side) s = s /\
    after (get_board_str EMPTY_str) s = s.
Proof.
  intros L e s pos side.
  repeat split.
  - apply read_only_get_piece.
  - apply read_only_count.
  - apply read_only_piece_exists.
  - apply read_only_is_done.
  - apply read_only_utility.
  - apply read_only_get_board_str.
Qed.

(** ** What the scans over [pos_range] compute *)

Lemma has_piece_b_iff g p : has_piece_b g p = true <-> has_piece g p.
Proof.
  unfold has_piece_b, has_piece. rewrite existsb_exists. split.
  - intros (c & Hin & Heq). apply Piece_eqb_eq in Heq. by subst.
  - intros Hin. exists p. split; [done | by apply Piece_eqb_eq].
Qed.

Lemma has_piece_b_false g p : has_piece_b g p = false <-> ~ has_piece g p.
Proof.
  rewrite <- has_piece_b_iff. destruct (has_piece_b g p); split; congruence.
Qed.

(** Read in the order of [pos_range], a well-shaped board is the
    concatenation of its rows. *)
Lemma get_piece_cells s :
  grid_shape (board_state s) ->
  Forall2 (fun pos cell => get_piece pos s = (Ok cell, s))
    Position.pos_range (concat (board_state s)).
Proof.
  destruct s as [g t d v hm]; simpl. intros H. explode_grid H. subst g.
  repeat constructor.
Qed.

Lemma piece_exists_from_scan s piece ps cells :
  Forall2 (fun pos cell => get_piece pos s = (Ok cell, s)) ps cells ->
  piece_exists_from ps piece s
  = (Ok (existsb (fun c => Piece.eqb c piece) cells), s).
Proof.
  induction 1 as [|pos cell ps cells Hget _ IH]; [reflexivity|].
  simpl. unfold bind. rewrite Hget.
  destruct (Piece.eqb cell piece); [reflexivity | exact IH].
Qed.

Lemma count_ones_scan s side ps cells :
  Forall2 (fun pos cell => get_piece pos s = (Ok cell, s)) ps cells ->
  count_ones ps side s
  = (Ok (map (fun _ => 1) (List.filter (fun c => Piece.eqb c side) cells)), s).
Proof.
  induction 1 as [|pos cell ps cells Hget _ IH]; [reflexivity|].
  simpl. unfold bind. rewrite Hget, IH. unfold ret.
  by destruct (Piece.eqb cell side).
Qed.

Lemma sum_ones {A} (l : list A) (acc : Z) :
  fold_left Z.add (map (fun _ => 1) l) acc = acc + Z.of_nat (length l).
Proof.
  revert acc. induction l as [|x l IH]; intros acc; simpl fold_left.
  - simpl. lia.
  - rewrite IH. simpl length. lia.
Qed.

Lemma piece_exists_run s piece :
  grid_shape (board_state s) ->
  piece_exists piece s = (Ok (has_piece_b (board_state s) piece), s).
Proof.
  intros H. unfold piece_exists.
  by rewrite (piece_exists_from_scan _ _ _ _ (get_piece_cells s H)).
Qed.

Lemma count_run s side :
  grid_shape (board_state s) ->
  count side s = (Ok (count_cells (board_state s) side), s).
Proof.
  intros H. unfold count, bind.
  rewrite (count_ones_scan _ _ _ _ (get_piece_cells s H)).
  unfold ret, count_cells. by rewrite sum_ones.
Qed.

Lemma is_done_run L s o :
  grid_shape (board_state s) ->
  Piece.other (turn_to_play s) = Ok o ->
  is_done L s
  = (Ok ((L <=? half_moves s)
         || negb (has_piece_b (board_state s) (turn_to_play s)
                  && has_piece_b (board_state s) o)), s).
Proof.
  intros H Ho. unfold is_done, bind, gets.
  destruct (L <=? half_moves s); [reflexivity|].
  rewrite (piece_exists_run s _ H). unfold other_side, bind, gets, lift.
  rewrite Ho, (piece_exists_run s _ H).
  by destruct (has_piece_b _ _), (has_piece_b _ _).
Qed.

Lemma is_side_other t : is_side t -> exists o, Piece.other t = Ok o /\ is_side o.
Proof.
  intros [-> | ->]; [exists Piece.BLACK | exists Piece.WHITE];
    (split; [reflexivity|]); [by right | by left].
Qed.

(** ** Terminal states and utility *)

(** C4: once half_moves has reached MOVE_LIMIT, is_done() is true and
    utility(side) is DRAW for WHITE and for BLACK, whatever the grid holds. *)
Theorem move_limit_is_draw :
  forall (MOVE_LIMIT : Z) (s : FanoronaState),
    MOVE_LIMIT <= half_moves s ->
    value (is_done MOVE_LIMIT) s = Ok true /\
    value (utility MOVE_LIMIT Piece.WHITE) s = Ok (Tag Reward.DRAW) /\
    value (utility MOVE_LIMIT Piece.BLACK) s = Ok (Tag Reward.DRAW).
Proof.
  intros L s H. apply Z.leb_le in H.
  unfold value, is_done, utility, bind, gets. rewrite H. by simpl.
Qed.

Lemma move_limit_is_draw_witness :
  value (is_done 3) sample_state = Ok true /\
  value (utility 3 Piece.WHITE) sample_state = Ok (Tag Reward.DRAW) /\
  value (utility 3 Piece.BLACK) sample_state = Ok (Tag Reward.DRAW).
Proof. apply (move_limit_is_draw 3 sample_state). simpl. lia. Defined.

(** C3: on a valid state is_done() returns a boolean, and it is true exactly
    when half_moves >= MOVE_LIMIT, or no cell holds the colour of the side to
    move, or no cell holds the colour of its opponent. *)
Theorem is_done_iff :
  forall (MOVE_LIMIT : Z) (s : FanoronaState),
    valid_state s ->
    exists (o : Piece.t) (b : bool),
      Piece.other (turn_to_play s) = Ok o /\
      value (is_done MOVE_LIMIT) s = Ok b /\
      (b = true <->
       MOVE_LIMIT <= half_moves s \/
       ~ has_piece (board_state s) (turn_to_play s) \/
       ~ has_piece (board_state s) o).
Proof.
  intros L s [Hg Ht _].
  destruct (is_side_other _ Ht) as (o & Ho & _).
  exists o. eexists. split; [exact Ho|]. split.
  - unfold value. by rewrite (is_done_run L s o Hg Ho).
  - rewrite orb_true_iff, negb_true_iff, andb_false_iff, Z.leb_le.
    by rewrite !has_piece_b_false.
Qed.

Lemma is_done_iff_witness :
  exists (o : Piece.t) (b : bool),
    Piece.other (turn_to_play sample_state) = Ok o /\
    value (is_done 44) sample_state = Ok b /\
    (b = true <->
     44 <= half_moves sample_state \/
     ~ has_piece (board_state sample_state) (turn_to_play sample_state) \/
     ~ has_piece (board_state sample_state) o).
Proof. apply (is_done_iff 44 sample_state). valid_by_evaluation. Defined.

Lemma utility_run L s side side' o :
  grid_shape (board_state s) ->
  half_moves s < L ->
  Piece.other (turn_to_play s) = Ok o ->
  Piece.other side = Ok side' ->
  let g := board_state s in
  let t := turn_to_play s in
  utility L side s
  = (Ok (if has_piece_b g t && has_piece_b g o
         then Score (count_cells g side - count_cells g side')
         else if Piece.eqb side (if has_piece_b g t then t else o)
              then Tag Reward.WIN else Tag Reward.LOSS), s).
Proof.
  intros Hg Hhm Ho Hside g t. subst g t.
  apply Z.leb_gt in Hhm.
  unfold utility, bind, gets. rewrite Hhm.
  rewrite (is_done_run L s o Hg Ho), Hhm. simpl orb.
  destruct (has_piece_b (board_state s) (turn_to_play s)) eqn:Et;
    destruct (has_piece_b (board_state s) o) eqn:Eo;
    cbn [andb negb orb]; cbv beta iota.
  - rewrite (count_run s side Hg). unfold lift. rewrite Hside.
    by rewrite (count_run s side' Hg).
  - rewrite (piece_exists_run s _ Hg), Et. unfold ret.
    by destruct (Piece.eqb side (turn_to_play s)).
  - rewrite (piece_exists_run s _ Hg), Et.
    unfold other_side, bind, gets, lift. rewrite Ho.
    by destruct (Piece.eqb side o).
  - rewrite (piece_exists_run s _ Hg), Et.
    unfold other_side, bind, gets, lift. rewrite Ho.
    by destruct (Piece.eqb side o).
Qed.

(** C2: on a valid state with half_moves < MOVE_LIMIT, with [o] the opponent
    of the side to move: when both sides have a piece, utility(side) is the
    integer count(side) - count(other(side)); when one of them has none,
    one of utility(WHITE), utility(BLACK) is WIN and the other LOSS, the
    winner being the side to move if it still has a piece and its opponent
    otherwise. *)
Theorem utility_shape :
  forall (MOVE_LIMIT : Z) (s : FanoronaState),
    valid_state s ->
    half_moves s < MOVE_LIMIT ->
    exists o : Piece.t,
      Piece.other (turn_to_play s) = Ok o /\
      (has_piece (board_state s) (turn_to_play s) ->
       has_piece (board_state s) o ->
       forall side side' : Piece.t,
         Piece.other side = Ok side' ->
         exists a b : Z,
           value (count side) s = Ok a /\
           value (count side') s = Ok b /\
           value (utility MOVE_LIMIT side) s = Ok (Score (a - b))) /\
      (~ (has_piece (board_state s) (turn_to_play s) /\
          has_piece (board_state s) o) ->
       (value (utility MOVE_LIMIT Piece.WHITE) s = Ok (Tag Reward.WIN) /\
        value (utility MOVE_LIMIT Piece.BLACK) s = Ok (Tag Reward.LOSS) \/
        value (utility MOVE_LIMIT Piece.WHITE) s = Ok (Tag Reward.LOSS) /\
        value (utility MOVE_LIMIT Piece.BLACK) s = Ok (Tag Reward.WIN)) /\
       (has_piece (board_state s) (turn_to_play s) ->
        value (utility MOVE_LIMIT (turn_to_play s)) s = Ok (Tag Reward.WIN) /\
        value (utility MOVE_LIMIT o) s = Ok (Tag Reward.LOSS)) /\
       (~ has_piece (board_state s) (turn_to_play s) ->
        value (utility MOVE_LIMIT o) s = Ok (Tag Reward.WIN) /\
        value (utility MOVE_LIMIT (turn_to_play s)) s = Ok (Tag Reward.LOSS))).
Proof.
  intros L s [Hg Ht _] Hhm.
  destruct (is_side_other _ Ht) as (o & Ho & Hso).
  exists o. split; [exact Ho|]. split.
  - intros Hpt Hpo side side' Hside.
    exists (count_cells (board_state s) side), (count_cells (board_state s) side').
    unfold value. rewrite !(count_run s _ Hg).
    rewrite (utility_run L s side side' o Hg Hhm Ho Hside). simpl.
    apply has_piece_b_iff in Hpt, Hpo. by rewrite Hpt, Hpo.
  - intros Hnot.
    assert (Hb : has_piece_b (board_state s) (turn_to_play s)
                 && has_piece_b (board_state s) o = false).
    { destruct (has_piece_b (board_state s) (turn_to_play s)) eqn:E1,
        (has_piece_b (board_state s) o) eqn:E2; try reflexivity.
      exfalso. apply Hnot. split; by apply has_piece_b_iff. }
    pose proof (utility_run L s Piece.WHITE Piece.BLACK o Hg Hhm Ho eq_refl)
      as HW.
    pose proof (utility_run L s Piece.BLACK Piece.WHITE o Hg Hhm Ho eq_refl)
      as HB.
    cbv zeta in HW, HB. rewrite Hb in HW, HB. unfold value.
    destruct Ht as [Et | Et]; rewrite Et in *; simpl in Ho;
      injection Ho as <-; rewrite HW, HB; simpl;
      rewrite <- !has_piece_b_iff;
      destruct (has_piece_b (board_state s) _); simpl;
      intuition congruence.
Qed.

Lemma utility_shape_witness :
  exists o : Piece.t,
    Piece.other (turn_to_play sample_state) = Ok o /\
    (has_piece (board_state sample_state) (turn_to_play sample_state) ->
     has_piece (board_state sample_state) o ->
     forall side side' : Piece.t,
       Piece.other side = Ok side' ->
       exists a b : Z,
         value (count side) sample_state = Ok a /\
         value (count side') sample_state = Ok b /\
         value (utility 44 side) sample_state = Ok (Score (a - b))) /\
    (~ (has_piece (board_state sample_state) (turn_to_play sample_state) /\
        has_piece (board_state sample_state) o) ->
     (value (utility 44 Piece.WHITE) sample_state = Ok (Tag Reward.WIN) /\
      value (utility 44 Piece.BLACK) sample_state = Ok (Tag Reward.LOSS) \/
      value (utility 44 Piece.WHITE) sample_state = Ok (Tag Reward.LOSS) /\
      value (utility 44 Piece.BLACK) sample_state = Ok (Tag Reward.WIN)) /\
     (has_piece (board_state sample_state) (turn_to_play sample_state) ->
      value (utility 44 (turn_to_play sample_state)) sample_state
      = Ok (Tag Reward.WIN) /\
      value (utility 44 o) sample_state = Ok (Tag Reward.LOSS)) /\
     (~ has_piece (board_state sample_state) (turn_to_play sample_state) ->
      value (utility 44 o) sample_state = Ok (Tag Reward.WIN) /\
      value (utility 44 (turn_to_play sample_state)) sample_state
      = Ok (Tag Reward.LOSS))).
Proof.
  apply (utility_shape 44 sample_state); [valid_by_evaluation | simpl; lia].
Defined.

(** ** Subscripts *)

Lemma norm_index_in len i :
  - Z.of_nat len <= i < Z.of_nat len ->
  norm_index len i = Ok (Z.to_nat (i mod Z.of_nat len)).
Proof.
  intros H. unfold norm_index.
  destruct (Z.ltb_spec i 0).
  - replace (i mod Z.of_nat len) with (i + Z.of_nat len).
    + destruct (Z.leb_spec 0 (i + Z.of_nat len)); [|lia].
      destruct (Z.ltb_spec (i + Z.of_nat len) (Z.of_nat len)); [done | lia].
    + apply Z.mod_unique with (q := -1); lia.
  - rewrite Z.mod_small by lia.
    destruct (Z.leb_spec 0 i); [|lia].
    destruct (Z.ltb_spec i (Z.of_nat len)); [done | lia].
Qed.

Lemma norm_index_out len i :
  i < - Z.of_nat len \/ Z.of_nat len <= i ->
  norm_index len i = Raise IndexError.
Proof.
  intros H. unfold norm_index.
  destruct (Z.ltb_spec i 0).
  - destruct (Z.leb_spec 0 (i + Z.of_nat len)); [lia | done].
  - destruct (Z.ltb_spec i (Z.of_nat len)); [lia|].
    by rewrite andb_false_r.
Qed.

Lemma norm_index_nat len (k : nat) :
  norm_index len (Z.of_nat k)
  = if decide (k < len)%nat then Ok k else Raise IndexError.
Proof.
  destruct (decide (k < len)%nat).
  - rewrite norm_index_in by lia. f_equal. rewrite Z.mod_small; lia.
  - apply norm_index_out. lia.
Qed.

Lemma py_index_in {A} (l : list A) i :
  - Z.of_nat (length l) <= i < Z.of_nat (length l) ->
  exists x, l !! Z.to_nat (i mod Z.of_nat (length l)) = Some x /\
            py_index l i = Ok x.
Proof.
  intros H. unfold py_index. rewrite norm_index_in by done. simpl.
  destruct (lookup_lt_is_Some_2 l (Z.to_nat (i mod Z.of_nat (length l))))
    as [x Hx].
  - pose proof (Z.mod_pos_bound i (Z.of_nat (length l))). lia.
  - exists x. by rewrite Hx.
Qed.

Lemma py_index_out {A} (l : list A) i :
  i < - Z.of_nat (length l) \/ Z.of_nat (length l) <= i ->
  py_index l i = Raise IndexError.
Proof. intros H. unfold py_index. by rewrite norm_index_out. Qed.

Lemma grid_shape_row {A} (g : list (list A)) i row :
  grid_shape g -> g !! i = Some row -> length row = BOARD_COLS.
Proof.
  intros [_ Hf] Hi. rewrite Forall_forall in Hf. apply Hf.
  by eapply list_elem_of_lookup_2.
Qed.

(** C8, as the code has it: get_piece raises IndexError when the row is
    outside [-ROWS, ROWS) or the column outside [-COLS, COLS); for a position
    of the grid it returns the piece stored at that cell; a negative index
    down to -ROWS (or -COLS) is not an error but counts from the end. *)
Theorem get_piece_subscript :
  forall (s : FanoronaState) (pos : Position.t),
    grid_shape (board_state s) ->
    let r := Position.row pos in
    let c := Position.col pos in
    let R := Z.of_nat BOARD_ROWS in
    let C := Z.of_nat BOARD_COLS in
    (r < - R \/ R <= r \/ c < - C \/ C <= c ->
     value (get_piece pos) s = Raise IndexError) /\
    (Position.in_grid pos = true ->
     exists p, cell_at (board_state s) (Z.to_nat r) (Z.to_nat c) = Some p /\
               value (get_piece pos) s = Ok p) /\
    (- R <= r < R -> - C <= c < C ->
     exists p,
       cell_at (board_state s) (Z.to_nat (r mod R)) (Z.to_nat (c mod C)) = Some p /\
       value (get_piece pos) s = Ok p).
Proof.
  intros s pos Hg r c R C.
  assert (Hwrap : - R <= r < R -> - C <= c < C ->
    exists p,
      cell_at (board_state s) (Z.to_nat (r mod R)) (Z.to_nat (c mod C)) = Some p /\
      value (get_piece pos) s = Ok p).
  { intros Hr Hc. pose proof Hg as [Hlen _]. subst R C.
    destruct (py_index_in (board_state s) r) as (row & Hrow & Erow);
      [rewrite Hlen; exact Hr|].
    rewrite Hlen in Hrow.
    pose proof (grid_shape_row _ _ _ Hg Hrow) as Hrl.
    destruct (py_index_in row c) as (p & Hp & Ep); [rewrite Hrl; exact Hc|].
    rewrite Hrl in Hp.
    exists p. unfold cell_at. rewrite Hrow. split; [exact Hp|].
    unfold value, get_piece, bind, gets, lift. fold r c. by rewrite Erow. }
  split; [|split]; [| |exact Hwrap].
  - intros Hout. pose proof Hg as [Hlen _].
    unfold value, get_piece, bind, gets, lift. fold r c.
    destruct (decide (r < - R \/ R <= r)) as [Hr | Hr].
    + rewrite py_index_out; [done | by rewrite Hlen].
    + destruct (py_index_in (board_state s) r) as (row & Hrow & Erow);
        [rewrite Hlen; subst R; lia|].
      rewrite Erow. simpl. rewrite Hlen in Hrow.
      pose proof (grid_shape_row _ _ _ Hg Hrow) as Hrl.
      apply py_index_out. rewrite Hrl. subst C. lia.
  - intros Hin. unfold Position.in_grid in Hin. fold r c R C in Hin.
    apply andb_true_iff in Hin as [Hin H4].
    apply andb_true_iff in Hin as [Hin H3].
    apply andb_true_iff in Hin as [H1 H2].
    apply Z.leb_le in H1, H3. apply Z.ltb_lt in H2, H4.
    destruct Hwrap as (p & Hp & Ep); [lia | lia |].
    rewrite !Z.mod_small in Hp by lia. by exists p.
Qed.

Lemma get_piece_subscript_witness :
  let s := sample_state in
  let pos := Position.mk (-1) 0 in
  let r := Position.row pos in
  let c := Position.col pos in
  let R := Z.of_nat BOARD_ROWS in
  let C := Z.of_nat BOARD_COLS in
  (r < - R \/ R <= r \/ c < - C \/ C <= c ->
   value (get_piece pos) s = Raise IndexError) /\
  (Position.in_grid pos = true ->
   exists p, cell_at (board_state s) (Z.to_nat r) (Z.to_nat c) = Some p /\
             value (get_piece pos) s = Ok p) /\
  (- R <= r < R -> - C <= c < C ->
   exists p,
     cell_at (board_state s) (Z.to_nat (r mod R)) (Z.to_nat (c mod C)) = Some p /\
     value (get_piece pos) s = Ok p).
Proof.
  apply (get_piece_subscript sample_state (Position.mk (-1) 0)).
  split; [reflexivity | repeat constructor].
Defined.

(** C8, as stated, fails: the position (-1, 0) lies outside the grid, yet on
    the sample state get_piece does not raise; it returns the piece of the
    last row. *)
Lemma get_piece_negative_row_counterexample :
  Position.in_grid (Position.mk (-1) 0) = false /\
  valid_state sample_state /\
  value (get_piece (Position.mk (-1) 0)) sample_state = Ok Piece.BLACK /\
  ~ fails (value (get_piece (Position.mk (-1) 0)) sample_state).
Proof.
  split; [reflexivity|]. split; [valid_by_evaluation|].
  split; [reflexivity|]. intros [e He]. discriminate He.
Qed.

(** ** Clearing the visited grid *)

Lemma reset_visited_pos_run s :
  grid_shape (visited s) ->
  reset_visited_pos s
  = (Ok tt,
     mkState (board_state s) (turn_to_play s) (last_dir s)
       (replicate BOARD_ROWS (replicate BOARD_COLS false)) (half_moves s)).
Proof.
  destruct s as [g t d v hm]; simpl. intros H. explode_grid H. subst v.
  reflexivity.
Qed.

(** C9: on a state whose visited grid has the grid's shape,
    reset_visited_pos() returns normally, leaves every cell of the visited
    grid false, and leaves board_state, turn_to_play, last_dir and half_moves
    as they were. *)
Theorem reset_visited_pos_clears :
  forall s : FanoronaState,
    grid_shape (visited s) ->
    let s' := after reset_visited_pos s in
    value reset_visited_pos s = Ok tt /\
    visited s' = replicate BOARD_ROWS (replicate BOARD_COLS false) /\
    (forall r c, (r < BOARD_ROWS)%nat -> (c < BOARD_COLS)%nat ->
                 cell_at (visited s') r c = Some false) /\
    board_state s' = board_state s /\
    turn_to_play s' = turn_to_play s /\
    last_dir s' = last_dir s /\
    half_moves s' = half_moves s.
Proof.
  intros s H s'. subst s'. unfold value, after.
  rewrite (reset_visited_pos_run s H). simpl.
  repeat split.
  intros r c Hr Hc. unfold BOARD_ROWS, BOARD_COLS in *.
  do 5 (destruct r as [|r]; [do 9 (destruct c as [|c]; [reflexivity|]); lia|]).
  lia.
Qed.

Lemma reset_visited_pos_clears_witness :
  let s' := after reset_visited_pos sample_state in
  value reset_visited_pos sample_state = Ok tt /\
  visited s' = replicate BOARD_ROWS (replicate BOARD_COLS false) /\
  (forall r c, (r < BOARD_ROWS)%nat -> (c < BOARD_COLS)%nat ->
               cell_at (visited s') r c = Some false) /\
  board_state s' = board_state sample_state /\
  turn_to_play s' = turn_to_play sample_state /\
  last_dir s' = last_dir sample_state /\
  half_moves s' = half_moves sample_state.
Proof.
  apply (reset_visited_pos_clears sample_state).
  split; [reflexivity | repeat constructor].
Defined.

(** ** The empty board *)

(** C6: decoding "9/9/9/9/9 W - - 0" gives a state with count(WHITE) = 0,
    count(BLACK) = 0, is_done() true, utility(WHITE) = LOSS and
    utility(BLACK) = WIN, for any positive MOVE_LIMIT. *)
Theorem empty_board_scenario :
  forall (MOVE_LIMIT : Z) (Piece0 : Piece.t),
    0 < MOVE_LIMIT ->
    exists s : FanoronaState,
      set_from_board_str Piece0 (py "9/9/9/9/9 W - - 0") = Ok s /\
      value (count Piece.WHITE) s = Ok 0 /\
      value (count Piece.BLACK) s = Ok 0 /\
      value (is_done MOVE_LIMIT) s = Ok true /\
      value (utility MOVE_LIMIT Piece.WHITE) s = Ok (Tag Reward.LOSS) /\
      value (utility MOVE_LIMIT Piece.BLACK) s = Ok (Tag Reward.WIN).
Proof.
  intros L p0 HL.
  eexists. split; [vm_compute; reflexivity|].
  set (s := mkState _ _ _ _ _).
  assert (Hg : grid_shape (board_state s))
    by (split; [reflexivity | repeat constructor]).
  assert (Hhm : half_moves s < L) by (simpl; lia).
  assert (Ho : Piece.other (turn_to_play s) = Ok Piece.BLACK) by reflexivity.
  unfold value.
  rewrite !(count_run s _ Hg), (is_done_run L s _ Hg Ho).
  rewrite (utility_run L s Piece.WHITE Piece.BLACK _ Hg Hhm Ho eq_refl).
  rewrite (utility_run L s Piece.BLACK Piece.WHITE _ Hg Hhm Ho eq_refl).
  simpl. by rewrite orb_true_r.
Qed.

Lemma empty_board_scenario_witness :
  exists s : FanoronaState,
    set_from_board_str Piece.EMPTY (py "9/9/9/9/9 W - - 0") = Ok s /\
    value (count Piece.WHITE) s = Ok 0 /\
    value (count Piece.BLACK) s = Ok 0 /\
    value (is_done 44) s = Ok true /\
    value (utility 44 Piece.WHITE) s = Ok (Tag Reward.LOSS) /\
    value (utility 44 Piece.BLACK) s = Ok (Tag Reward.WIN).
Proof. apply (empty_board_scenario 44 Piece.EMPTY). lia. Defined.

(** ** Strings *)

Lemma ascii_eqb_eq a b : ascii_eqb a b = true <-> a = b.
Proof. unfold ascii_eqb. apply bool_decide_eq_true. Qed.

Lemma ascii_eqb_neq a b : ascii_eqb a b = false <-> a <> b.
Proof. unfold ascii_eqb. apply bool_decide_eq_false. Qed.

Lemma words_from_word w rest cur :
  Forall (fun c => is_space c = false) w ->
  words_from (w ++ rest) cur = words_from rest (cur ++ w).
Proof.
  intros H. revert cur. induction H as [|c w Hc _ IH]; intros cur; simpl.
  - by rewrite app_nil_r.
  - rewrite Hc, IH. by rewrite <- app_assoc.
Qed.

Lemma words_from_end w : is_word w -> words_from w [] = [w].
Proof.
  intros [Hne Hw].
  rewrite <- (app_nil_r w) at 1. rewrite words_from_word by done. simpl.
  by destruct w.
Qed.

Lemma words_from_sep w rest :
  is_word w -> words_from (w ++ py " " ++ rest) [] = w :: words_from rest [].
Proof.
  intros [Hne Hw]. rewrite words_from_word by done. simpl.
  by destruct w.
Qed.

(** [split()] undoes [" ".join(...)] on non-empty fields without white
    space. *)
Lemma py_split_join ws :
  Forall is_word ws -> py_split (join (py " ") ws) = ws.
Proof.
  unfold py_split. induction 1 as [|w ws Hw Hws IH]; [reflexivity|].
  destruct ws as [|w' ws].
  - simpl. by apply words_from_end.
  - change (join (py " ") (w :: w' :: ws))
      with (w ++ py " " ++ join (py " ") (w' :: ws)).
    rewrite words_from_sep by done. by rewrite IH.
Qed.

Lemma split_from_word sep w rest cur :
  Forall (fun c => c <> sep) w ->
  split_from sep (w ++ rest) cur = split_from sep rest (cur ++ w).
Proof.
  intros H. revert cur. induction H as [|c w Hc _ IH]; intros cur; simpl.
  - by rewrite app_nil_r.
  - apply ascii_eqb_neq in Hc. rewrite Hc, IH. by rewrite <- app_assoc.
Qed.

Lemma split_from_sep sep rest cur :
  split_from sep (sep :: rest) cur = cur :: split_from sep rest [].
Proof. simpl. by rewrite (proj2 (ascii_eqb_eq sep sep) eq_refl). Qed.

(** [split(sep)] undoes [sep.join(...)] on a non-empty list of fields
    without the separator. *)
Lemma split_on_join sep ws :
  ws <> [] ->
  Forall (Forall (fun c => c <> sep)) ws ->
  split_on sep (join [sep] ws) = ws.
Proof.
  unfold split_on. intros Hne H. induction H as [|w ws Hw Hws IH]; [done|].
  destruct ws as [|w' ws].
  - simpl. rewrite <- (app_nil_r w) at 1. by rewrite split_from_word.
  - change (join [sep] (w :: w' :: ws))
      with (w ++ sep :: join [sep] (w' :: ws)).
    rewrite split_from_word, split_from_sep by done.
    by rewrite IH.
Qed.

Lemma rstrip_cons c x s : x <> c -> rstrip c (x :: s) = x :: rstrip c s.
Proof.
  intros Hx. simpl. apply ascii_eqb_neq in Hx. rewrite Hx.
  by destruct (rstrip c s).
Qed.

Lemma rstrip_word c w s :
  Forall (fun x => x <> c) w -> rstrip c (w ++ s) = w ++ rstrip c s.
Proof.
  induction 1 as [|x w Hx _ IH]; [reflexivity|].
  simpl app. rewrite rstrip_cons by done. by rewrite IH.
Qed.

Lemma rstrip_sep_cons c s :
  rstrip c s <> [] -> rstrip c (c :: s) = c :: rstrip c s.
Proof. intros H. simpl. by destruct (rstrip c s). Qed.

Lemma join_nonempty sep w ws : w <> [] -> join sep (w :: ws) <> [].
Proof. intros Hw. destruct ws; simpl; [done|]. by destruct w. Qed.

(** Stripping the separators at the end of rows that each end in one gives
    the rows joined by it. *)
Lemma rstrip_rows c ws :
  ws <> [] ->
  Forall (fun w => w <> [] /\ Forall (fun x => x <> c) w) ws ->
  rstrip c (concat (map (fun w => w ++ [c]) ws)) = join [c] ws.
Proof.
  intros Hne H. induction H as [|w ws [Hw1 Hw2] Hws IH]; [done|].
  simpl concat. rewrite <- app_assoc, rstrip_word by done.
  destruct ws as [|w' ws].
  - simpl. rewrite (proj2 (ascii_eqb_eq c c) eq_refl). by rewrite app_nil_r.
  - specialize (IH ltac:(done)).
    change (join [c] (w :: w' :: ws)) with (w ++ c :: join [c] (w' :: ws)).
    f_equal.
    apply Forall_cons_1 in Hws as [[Hw' _] _].
    pose proof (join_nonempty [c] w' ws Hw') as Hj.
    change ([c] ++ ?x) with (c :: x).
    rewrite rstrip_sep_cons; rewrite IH; done.
Qed.

(** ** Decimal numbers *)

Lemma digit_val_char d : 0 <= d <= 9 -> digit_val (digit_char d) = Some d.
Proof.
  intros H.
  assert (d = 0 \/ d = 1 \/ d = 2 \/ d = 3 \/ d = 4 \/ d = 5 \/ d = 6 \/
          d = 7 \/ d = 8 \/ d = 9) as Hd by lia.
  repeat (destruct Hd as [-> | Hd]; [reflexivity|]). by subst.
Qed.

(** What a digit is not. *)
Lemma digit_val_class c d :
  digit_val c = Some d ->
  0 <= d <= 9 /\ c = digit_char d /\ is_space c = false /\
  c <> "-"%char /\ c <> "+"%char /\ c <> "/"%char /\ c <> ","%char /\
  c <> "W"%char /\ c <> "B"%char.
Proof.
  destruct c as [[] [] [] [] [] [] [] []]; try discriminate;
    intros [= <-]; repeat split; try done.
Qed.

Lemma int_digits_cons c d r a flag :
  digit_val c = Some d ->
  int_digits (c :: r) a flag = int_digits r (10 * a + d) true.
Proof. intros H. cbn [int_digits]. by rewrite H. Qed.

Lemma digits_of_S fuel n acc :
  digits_of (Datatypes.S fuel) n acc
  = if n / 10 =? 0 then digit_char (n mod 10) :: acc
    else digits_of fuel (n / 10) (digit_char (n mod 10) :: acc).
Proof. reflexivity. Qed.

Lemma int_digits_digits_of fuel n rest flag :
  0 <= n < 2 ^ Z.of_nat (Datatypes.S fuel) ->
  int_digits (digits_of (Datatypes.S fuel) n rest) 0 flag
  = int_digits rest n true.
Proof.
  revert n rest flag. induction fuel as [|fuel IH]; intros n rest flag Hn;
    pose proof (Z.div_mod n 10 ltac:(lia)) as Hdm;
    pose proof (Z.mod_pos_bound n 10 ltac:(lia)) as Hm;
    rewrite digits_of_S.
  - change (2 ^ Z.of_nat 1) with 2 in Hn.
    assert (n / 10 = 0) as H0 by (apply Z.div_small; lia).
    rewrite H0. cbn [Z.eqb].
    rewrite (int_digits_cons _ (n mod 10)) by (apply digit_val_char; lia).
    f_equal. lia.
  - destruct (Z.eqb_spec (n / 10) 0) as [H0 | H0].
    + rewrite (int_digits_cons _ (n mod 10)) by (apply digit_val_char; lia).
      f_equal. lia.
    + rewrite IH.
      * rewrite (int_digits_cons _ (n mod 10)) by (apply digit_val_char; lia).
        f_equal. lia.
      * rewrite Nat2Z.inj_succ, Z.pow_succ_r in Hn by lia.
        split; [apply Z.div_pos; lia|].
        apply Z.div_lt_upper_bound; lia.
Qed.

Lemma log2_fuel n : 0 <= n -> n < 2 ^ Z.of_nat (Datatypes.S (Z.to_nat (Z.log2 n))).
Proof.
  intros Hn. rewrite Nat2Z.inj_succ, Z2Nat.id by apply Z.log2_nonneg.
  destruct (Z.eq_dec n 0) as [-> | Hz]; [done|].
  apply Z.log2_spec. lia.
Qed.

Lemma int_digits_decimal n : 0 <= n -> int_digits (decimal n) 0 false = Ok n.
Proof.
  intros Hn. unfold decimal.
  rewrite int_digits_digits_of by (split; [done | by apply log2_fuel]).
  reflexivity.
Qed.

Lemma digits_of_digits fuel n acc :
  0 <= n ->
  Forall (fun c => digit_val c <> None) acc ->
  Forall (fun c => digit_val c <> None) (digits_of fuel n acc).
Proof.
  revert n acc. induction fuel as [|fuel IH]; intros n acc Hn Hacc; [done|].
  pose proof (Z.mod_pos_bound n 10 ltac:(lia)) as Hm.
  assert (Forall (fun c => digit_val c <> None) (digit_char (n mod 10) :: acc)).
  { constructor; [|done]. by rewrite digit_val_char by lia. }
  rewrite digits_of_S. destruct (n / 10 =? 0); [done|].
  apply IH; [apply Z.div_pos; lia | done].
Qed.

Lemma digits_of_nonempty fuel n acc :
  digits_of (Datatypes.S fuel) n acc <> [].
Proof.
  revert n acc. induction fuel as [|fuel IH]; intros n acc;
    rewrite digits_of_S; destruct (n / 10 =? 0); done.
Qed.

Lemma decimal_digits n :
  0 <= n -> decimal n <> [] /\ Forall (fun c => digit_val c <> None) (decimal n).
Proof.
  intros Hn. split; [apply digits_of_nonempty | by apply digits_of_digits].
Qed.

(** [int] undoes [str] on every integer. *)
Lemma py_int_str z : py_int (py_str_int z) = Ok z.
Proof.
  unfold py_str_int. destruct (Z.ltb_spec z 0) as [Hneg | Hpos].
  - simpl. rewrite int_digits_decimal by lia. simpl. f_equal. lia.
  - destruct (decimal_digits z Hpos) as [Hne Hd].
    pose proof (int_digits_decimal z Hpos) as Hint.
    destruct (decimal z) as [|c r]; [done|].
    apply Forall_cons_1 in Hd as [Hc _].
    destruct (digit_val c) as [d|] eqn:Ed; [|done].
    destruct (digit_val_class c d Ed) as (_ & _ & _ & Hm & Hp & _).
    unfold py_int. apply ascii_eqb_neq in Hm, Hp. by rewrite Hm, Hp.
Qed.

(** A run of 1 to 9 cells is written as one digit. *)
Lemma py_str_int_digit n : 1 <= n <= 9 -> py_str_int n = [digit_char n].
Proof.
  intros H.
  assert (n = 1 \/ n = 2 \/ n = 3 \/ n = 4 \/ n = 5 \/ n = 6 \/
          n = 7 \/ n = 8 \/ n = 9) as Hn by lia.
  repeat (destruct Hn as [-> | Hn]; [reflexivity|]). by subst.
Qed.

Lemma py_str_int_word z : is_word (py_str_int z).
Proof.
  assert (Hsp : forall n, 0 <= n ->
            Forall (fun c => is_space c = false) (decimal n)).
  { intros n Hn. destruct (decimal_digits n Hn) as [_ Hd].
    eapply Forall_impl; [exact Hd|]. intros c Hc. simpl in Hc.
    destruct (digit_val c) as [d|] eqn:Ed; [|done].
    by destruct (digit_val_class c d Ed) as (_ & _ & ? & _). }
  unfold py_str_int. destruct (Z.ltb_spec z 0).
  - split; [done|]. constructor; [reflexivity | apply Hsp; lia].
  - split; [by apply decimal_digits | by apply Hsp].
Qed.

(** ** The board string, row by row *)

Lemma flush_run_str bs n : 0 <= n -> flush bs n = (bs ++ run_str n, 0).
Proof.
  intros Hn. unfold flush, run_str. destruct (Z.ltb_spec 0 n); [done|].
  rewrite app_nil_r. f_equal. lia.
Qed.

Lemma encode_cells_flush e row bs n :
  0 <= n ->
  flush (encode_cells e row bs n).1 (encode_cells e row bs n).2
  = (bs ++ rle_row e row n, 0).
Proof.
  revert bs n. induction row as [|p row IH]; intros bs n Hn.
  - simpl. by apply flush_run_str.
  - destruct p; cbn [encode_cells rle_row Piece.eqb].
    + rewrite (flush_run_str bs n Hn). cbv beta iota.
      rewrite IH by lia. by rewrite <- !app_assoc.
    + rewrite (flush_run_str bs n Hn). cbv beta iota.
      rewrite IH by lia. by rewrite <- !app_assoc.
    + by rewrite IH by lia.
Qed.

Lemma encode_rows_concat e rows bs :
  encode_rows e rows bs 0
  = (bs ++ concat (map (fun row => rle_row e row 0 ++ py "/") rows), 0).
Proof.
  revert bs. induction rows as [|row rows IH]; intros bs.
  - simpl. by rewrite app_nil_r.
  - cbn [encode_rows map concat].
    pose proof (encode_cells_flush e row bs 0 ltac:(lia)) as Hf.
    destruct (encode_cells e row bs 0) as [b1 n1]. simpl in Hf.
    rewrite Hf, IH. by rewrite <- !app_assoc.
Qed.

Lemma row_char_class c :
  row_char c ->
  c <> "/"%char /\ c <> "0"%char /\ is_space c = false.
Proof.
  intros [-> | [-> | (d & Hd & ->)]]; [done | done |].
  pose proof (digit_val_char d ltac:(lia)) as Hv.
  destruct (digit_val_class _ _ Hv) as (_ & _ & Hs & _ & _ & Hsl & _).
  repeat split; [done | | done].
  intros H0. rewrite H0 in Hv. vm_compute in Hv. injection Hv. lia.
Qed.

Lemma run_str_chars n : 0 <= n <= 9 -> Forall row_char (run_str n).
Proof.
  intros Hn. unfold run_str. destruct (Z.ltb_spec 0 n); [|done].
  rewrite py_str_int_digit by lia. constructor; [|done].
  right. right. exists n. split; [lia | done].
Qed.

Lemma rle_row_chars e row n :
  0 <= n ->
  n + Z.of_nat (length row) <= 9 ->
  Forall row_char (rle_row e row n).
Proof.
  revert n. induction row as [|p row IH]; intros n Hn Hlen; simpl in Hlen.
  - apply run_str_chars. lia.
  - destruct p; cbn [rle_row].
    + apply Forall_app. split; [apply run_str_chars; lia|].
      constructor; [by left | apply IH; lia].
    + apply Forall_app. split; [apply run_str_chars; lia|].
      constructor; [by right; left | apply IH; lia].
    + apply IH; lia.
Qed.

Lemma rle_row_nonempty e row n :
  0 <= n -> 0 < n + Z.of_nat (length row) -> rle_row e row n <> [].
Proof.
  revert n. induction row as [|p row IH]; intros n Hn Hlen; simpl in Hlen.
  - unfold rle_row, run_str. destruct (Z.ltb_spec 0 n); [|lia].
    apply py_str_int_word.
  - destruct p; cbn [rle_row].
    + intros H. apply app_eq_nil in H as [_ H]. discriminate H.
    + intros H. apply app_eq_nil in H as [_ H]. discriminate H.
    + apply IH; lia.
Qed.

Lemma grid_shape_rows {A} (g : list (list A)) :
  grid_shape g -> g <> [] /\ Forall (fun row => length row = 9%nat) g.
Proof. intros [Hl Hf]. split; [by destruct g | exact Hf]. Qed.

(** On a well-shaped grid the encoder's board string is the rows' run-length
    strings joined by [/]. *)
Lemma encode_board_join e g :
  grid_shape g ->
  encode_board e g = join (py "/") (map (fun row => rle_row e row 0) g).
Proof.
  intros Hg. destruct (grid_shape_rows g Hg) as [Hne Hrows].
  unfold encode_board. rewrite encode_rows_concat. simpl app. cbn [Z.ltb Z.compare].
  change (py "/") with ["/"%char].
  rewrite <- (rstrip_rows "/" (map (fun row => rle_row e row 0) g)).
  - by rewrite map_map.
  - by destruct g.
  - apply Forall_map. eapply Forall_impl; [exact Hrows|].
    intros row Hlen. simpl in Hlen |- *. split.
    + apply rle_row_nonempty; lia.
    + eapply Forall_impl; [apply (rle_row_chars e row 0); lia|].
      intros c Hc. by apply row_char_class.
Qed.

Lemma join_Forall (P : ascii -> Prop) sep ws :
  Forall P sep -> Forall (Forall P) ws -> Forall P (join sep ws).
Proof.
  intros Hsep. induction 1 as [|w ws Hw Hws IH]; [done|].
  destruct ws; [done|].
  change (Forall P (w ++ sep ++ join sep (l :: ws))).
  rewrite !Forall_app. done.
Qed.

(** The "/"-separated parts of the board string are the rows' strings. *)
Lemma board_string_parts e g :
  grid_shape g ->
  encode_board e g = join (py "/") (map (fun row => rle_row e row 0) g) /\
  split_on "/" (encode_board e g) = map (fun row => rle_row e row 0) g.
Proof.
  intros Hg. pose proof (encode_board_join e g Hg) as Henc.
  destruct (grid_shape_rows g Hg) as [Hne Hrows].
  split; [exact Henc|]. rewrite Henc.
  change (py "/") with ["/"%char]. apply split_on_join.
  - by destruct g.
  - apply Forall_map. eapply Forall_impl; [exact Hrows|].
    intros row Hlen. simpl in Hlen |- *.
    eapply Forall_impl; [apply (rle_row_chars e row 0); lia|].
    intros c Hc. by apply row_char_class.
Qed.

(** C7: on a well-shaped grid, the board string is the rows joined by [/],
    each row written with its runs of EMPTY cells flushed as a decimal count
    before a piece letter and at the end of the row (so before each [/] and at
    the end of the string); the string holds no character 0; and where the
    grid has a row of 9 EMPTY cells, that row's part of the string is the
    single token 9. *)
Theorem board_string_run_lengths :
  forall (EMPTY_str : str) (g : list (list Piece.t)),
    grid_shape g ->
    encode_board EMPTY_str g
    = join (py "/") (map (fun row => rle_row EMPTY_str row 0) g) /\
    ~ In "0"%char (encode_board EMPTY_str g) /\
    (forall i : nat,
        g !! i = Some (replicate BOARD_COLS Piece.EMPTY) ->
        split_on "/" (encode_board EMPTY_str g) !! i = Some (py "9")).
Proof.
  intros e g Hg. pose proof (encode_board_join e g Hg) as Henc.
  destruct (grid_shape_rows g Hg) as [Hne Hrows].
  assert (Hchars : Forall (Forall row_char) (map (fun row => rle_row e row 0) g)).
  { apply Forall_map. eapply Forall_impl; [exact Hrows|].
    intros row Hlen. simpl in Hlen |- *. apply rle_row_chars; lia. }
  split; [exact Henc|]. split.
  - rewrite Henc. intros Hin.
    assert (Hall : Forall (fun c => c <> "0"%char)
                     (join (py "/") (map (fun row => rle_row e row 0) g))).
    { apply join_Forall; [by repeat constructor|].
      eapply Forall_impl; [exact Hchars|]. intros w Hw.
      eapply Forall_impl; [exact Hw|]. intros c Hc. by apply row_char_class. }
    rewrite Forall_forall in Hall. apply list_elem_of_In in Hin.
    by apply (Hall _ Hin).
  - intros i Hi. rewrite Henc.
    change (py "/") with ["/"%char]. rewrite split_on_join.
    + rewrite list_lookup_fmap, Hi. reflexivity.
    + by destruct g.
    + eapply Forall_impl; [exact Hchars|]. intros w Hw.
      eapply Forall_impl; [exact Hw|]. intros c Hc. by apply row_char_class.
Qed.

Lemma board_string_run_lengths_witness :
  let g := [replicate BOARD_COLS Piece.EMPTY;
            replicate BOARD_COLS Piece.WHITE;
            [Piece.BLACK; Piece.EMPTY; Piece.EMPTY; Piece.WHITE; Piece.EMPTY;
             Piece.BLACK; Piece.EMPTY; Piece.EMPTY; Piece.EMPTY];
            replicate BOARD_COLS Piece.BLACK;
            replicate BOARD_COLS Piece.EMPTY] in
  encode_board (py "E") g
  = join (py "/") (map (fun row => rle_row (py "E") row 0) g) /\
  ~ In "0"%char (encode_board (py "E") g) /\
  (forall i : nat,
      g !! i = Some (replicate BOARD_COLS Piece.EMPTY) ->
      split_on "/" (encode_board (py "E") g) !! i = Some (py "9")).
Proof.
  apply (board_string_run_lengths (py "E")).
  split; [reflexivity | repeat constructor].
Defined.

(** ** Decoding a board string the encoder wrote *)

Lemma insert_at_length {A} (done : list A) x todo v :
  <[length done := v]> (done ++ x :: todo) = done ++ v :: todo.
Proof. rewrite insert_app_r_alt by lia. by rewrite Nat.sub_diag. Qed.

Lemma lookup_at_length {A} (done : list A) x todo :
  (done ++ x :: todo) !! length done = Some x.
Proof. by apply list_lookup_middle. Qed.

(** A store at row [r], just past the cells already written. *)
Lemma grid_set_next {A} (G : list (list A)) (r : nat) done x todo v :
  G !! r = Some (done ++ x :: todo) ->
  grid_set G (Z.of_nat r) (Z.of_nat (length done)) v
  = Ok (<[r := done ++ v :: todo]> G).
Proof.
  intros Hr. unfold grid_set.
  rewrite norm_index_nat. pose proof (lookup_lt_Some _ _ _ Hr) as Hlt.
  destruct (decide (r < length G)%nat); [|lia]. simpl. rewrite Hr.
  rewrite norm_index_nat.
  destruct (decide (length done < length (done ++ x :: todo))%nat) as [|Hn].
  - simpl. by rewrite insert_at_length.
  - rewrite length_app in Hn. simpl in Hn. lia.
Qed.

Lemma fill_empty_run n :
  forall (G : list (list Piece.t)) (r : nat) done todo cb,
    G !! r = Some (done ++ todo) ->
    (n <= length todo)%nat ->
    fill_empty G r (seq (length done) n) cb
    = Ok (<[r := done ++ replicate n Piece.EMPTY ++ drop n todo]> G,
          match n with O => cb | _ => (length done + n - 1)%nat end).
Proof.
  induction n as [|n IH]; intros G r done todo cb Hr Hn.
  - simpl. by rewrite list_insert_id.
  - destruct todo as [|x todo]; [simpl in Hn; lia|]. simpl in Hn.
    cbn [seq fill_empty]. rewrite (grid_set_next G r done x todo _ Hr). simpl rbind.
    replace (Datatypes.S (length done)) with (length (done ++ [Piece.EMPTY]))
      by (rewrite length_app; simpl; lia).
    rewrite (IH _ r (done ++ [Piece.EMPTY]) todo).
    + rewrite list_insert_insert_eq. f_equal. f_equal.
      * by rewrite <- app_assoc.
      * rewrite length_app. simpl. destruct n; lia.
    + rewrite list_lookup_insert_eq by (by eapply lookup_lt_Some).
      by rewrite <- app_assoc.
    + lia.
Qed.

Lemma py_int_digit d : 0 <= d <= 9 -> py_int [digit_char d] = Ok d.
Proof.
  intros Hd. pose proof (digit_val_char d Hd) as Hv.
  destruct (digit_val_class _ _ Hv) as (_ & _ & _ & Hm & Hp & _).
  apply ascii_eqb_neq in Hm, Hp. unfold py_int. rewrite Hm, Hp.
  by rewrite (int_digits_cons _ d) by done.
Qed.

(** Reading the text of a pending run writes that many EMPTY cells. *)
Lemma process_row_run (n : nat) G r done todo rest :
  G !! r = Some (done ++ todo) ->
  (n <= length todo)%nat ->
  (n <= 9)%nat ->
  process_row G r (run_str (Z.of_nat n) ++ rest) (length done)
  = process_row (<[r := done ++ replicate n Piece.EMPTY ++ drop n todo]> G)
      r rest (length done + n).
Proof.
  intros Hr Hn H9. destruct n as [|n].
  - simpl. rewrite list_insert_id by done. by rewrite Nat.add_0_r.
  - unfold run_str. destruct (Z.ltb_spec 0 (Z.of_nat (Datatypes.S n))); [|lia].
    rewrite py_str_int_digit by lia.
    pose proof (digit_val_char (Z.of_nat (Datatypes.S n)) ltac:(lia)) as Hv.
    destruct (digit_val_class _ _ Hv) as (_ & _ & _ & _ & _ & _ & _ & HW & HB).
    apply ascii_eqb_neq in HW, HB.
    cbn [app process_row]. rewrite HW, HB.
    rewrite py_int_digit by lia. cbn [rbind]. rewrite Nat2Z.id.
    rewrite (fill_empty_run _ G r done todo _ Hr Hn). cbn [rbind fst snd].
    f_equal. lia.
Qed.

Lemma process_row_piece G r done x todo rest e p :
  p <> Piece.EMPTY ->
  G !! r = Some (done ++ x :: todo) ->
  process_row G r (Piece.to_str e p ++ rest) (length done)
  = process_row (<[r := done ++ p :: todo]> G) r rest (Datatypes.S (length done)).
Proof.
  intros Hp Hr. destruct p; [| |done]; cbn [Piece.to_str].
  - change (py "W" ++ rest) with ("W"%char :: rest). cbn [process_row].
    change (ascii_eqb "W" "W") with true. cbv iota.
    by rewrite (grid_set_next G r done x todo _ Hr).
  - change (py "B" ++ rest) with ("B"%char :: rest). cbn [process_row].
    change (ascii_eqb "B" "W") with false. change (ascii_eqb "B" "B") with true.
    cbv iota. by rewrite (grid_set_next G r done x todo _ Hr).
Qed.

(** Reading a row's string rebuilds the row, after the cells already
    written. *)
Lemma process_row_rle e row :
  forall (n : nat) G r done todo,
    G !! r = Some (done ++ todo) ->
    length todo = (n + length row)%nat ->
    (length todo <= 9)%nat ->
    process_row G r (rle_row e row (Z.of_nat n)) (length done)
    = Ok (<[r := done ++ replicate n Piece.EMPTY ++ row]> G).
Proof.
  induction row as [|p row IH]; intros n G r done todo Hr Hlen H9.
  - simpl in Hlen. cbn [rle_row].
    rewrite <- (app_nil_r (run_str _)).
    rewrite (process_row_run n G r done todo [] Hr) by lia.
    simpl. rewrite drop_ge by lia. done.
  - simpl in Hlen.
    assert (Hrun : forall q, q <> Piece.EMPTY ->
      process_row G r
        (run_str (Z.of_nat n) ++ Piece.to_str e q ++ rle_row e row 0)
        (length done)
      = Ok (<[r := done ++ replicate n Piece.EMPTY ++ q :: row]> G)).
    { intros q Hq.
      rewrite (process_row_run n G r done todo _ Hr) by lia.
      destruct (drop n todo) as [|x rest] eqn:Edrop.
      { apply (f_equal length) in Edrop. rewrite length_drop in Edrop.
        simpl in Edrop. lia. }
      assert (Hrest : length rest = length row).
      { apply (f_equal length) in Edrop. rewrite length_drop in Edrop.
        simpl in Edrop. lia. }
      set (done1 := done ++ replicate n Piece.EMPTY).
      assert (Hd1 : (length done + n)%nat = length done1)
        by (unfold done1; rewrite length_app, length_replicate; lia).
      rewrite Hd1.
      assert (Hr1 : <[r := done ++ replicate n Piece.EMPTY ++ x :: rest]> G !! r
                    = Some (done1 ++ x :: rest)).
      { rewrite list_lookup_insert_eq by (by eapply lookup_lt_Some).
        unfold done1. by rewrite <- app_assoc. }
      rewrite (process_row_piece _ r done1 x rest _ e q Hq Hr1).
      replace (Datatypes.S (length done1)) with (length (done1 ++ [q]))
        by (rewrite length_app; simpl; lia).
      rewrite (IH 0%nat _ r (done1 ++ [q]) rest).
      - rewrite !list_insert_insert_eq. f_equal. f_equal.
        unfold done1. simpl. by rewrite <- !app_assoc.
      - rewrite list_lookup_insert_eq.
        + by rewrite <- app_assoc.
        + rewrite length_insert. by eapply lookup_lt_Some.
      - simpl. lia.
      - lia. }
    destruct p; cbn [rle_row].
    + by apply Hrun.
    + by apply Hrun.
    + replace (Z.of_nat n + 1) with (Z.of_nat (Datatypes.S n)) by lia.
      rewrite (IH (Datatypes.S n) G r done todo Hr) by lia.
      f_equal. f_equal. f_equal.
      rewrite replicate_S_end. by rewrite <- app_assoc.
Qed.

Lemma process_rows_rle e rows :
  forall (doneRows todoRows : list (list Piece.t)),
    length todoRows = length rows ->
    Forall (fun row => length row = 9%nat) rows ->
    Forall (fun row => length row = 9%nat) todoRows ->
    process_rows (doneRows ++ todoRows) (length doneRows)
      (map (fun row => rle_row e row 0) rows)
    = Ok (doneRows ++ rows).
Proof.
  induction rows as [|row rows IH]; intros doneRows todoRows Hlen Hrows Htodo.
  - destruct todoRows; [done | discriminate].
  - destruct todoRows as [|t todoRows]; [discriminate|].
    apply Forall_cons_1 in Hrows as [Hrow Hrows].
    apply Forall_cons_1 in Htodo as [Ht Htodo].
    cbn [map process_rows].
    rewrite (process_row_rle e row 0%nat _ (length doneRows) [] t);
      [| by rewrite lookup_at_length | simpl; lia | lia].
    cbn [rbind replicate app]. rewrite insert_at_length.
    replace (Datatypes.S (length doneRows)) with (length (doneRows ++ [row]))
      by (rewrite length_app; simpl; lia).
    replace (doneRows ++ row :: todoRows) with ((doneRows ++ [row]) ++ todoRows)
      by (by rewrite <- app_assoc).
    rewrite (IH (doneRows ++ [row]) todoRows); [| by injection Hlen | done | done].
    by rewrite <- app_assoc.
Qed.

(** The board decoder undoes the board encoder on every well-shaped grid. *)
Lemma process_board_state_str_encode e p0 g :
  grid_shape g ->
  process_board_state_str p0 (encode_board e g) = Ok g.
Proof.
  intros Hg. pose proof Hg as [Hlen Hrows].
  destruct (board_string_parts e g Hg) as [Henc Hsplit].
  unfold process_board_state_str. rewrite Hsplit.
  apply (process_rows_rle e g [] (replicate BOARD_ROWS (replicate BOARD_COLS p0))).
  - by rewrite length_replicate.
  - exact Hrows.
  - apply Forall_replicate. apply length_replicate.
Qed.

(** ** Decoding the visited labels the encoder wrote *)

Lemma in_grid_cases r c :
  Position.in_grid (Position.mk r c) = true ->
  (r = 0 \/ r = 1 \/ r = 2 \/ r = 3 \/ r = 4) /\
  (c = 0 \/ c = 1 \/ c = 2 \/ c = 3 \/ c = 4 \/ c = 5 \/ c = 6 \/ c = 7 \/ c = 8).
Proof.
  unfold Position.in_grid, BOARD_ROWS, BOARD_COLS. simpl Position.row.
  simpl Position.col. intros H.
  apply andb_true_iff in H as [H H4]. apply andb_true_iff in H as [H H3].
  apply andb_true_iff in H as [H1 H2].
  apply Z.leb_le in H1, H3. apply Z.ltb_lt in H2, H4. lia.
Qed.

Lemma of_human_to_human p :
  Position.in_grid p = true -> Position.of_human (Position.to_human p) = Ok p.
Proof.
  destruct p as [r c]. intros H. destruct (in_grid_cases r c H) as [Hr Hc].
  repeat (destruct Hr as [-> | Hr]); subst;
    repeat (destruct Hc as [-> | Hc]); subst; reflexivity.
Qed.

Lemma grid_label_class l :
  grid_label l ->
  length l = 2%nat /\
  Forall (fun c => c <> ","%char) l /\
  Forall (fun c => is_space c = false) l.
Proof.
  intros ([r c] & H & ->). destruct (in_grid_cases r c H) as [Hr Hc].
  repeat (destruct Hr as [-> | Hr]); subst;
    repeat (destruct Hc as [-> | Hc]); subst;
    (split; [reflexivity|]); split; by repeat constructor.
Qed.

Lemma of_coords_nat (r c : nat) :
  (r < BOARD_ROWS)%nat -> (c < BOARD_COLS)%nat ->
  Position.of_coords (Z.of_nat r, Z.of_nat c)
  = Ok (Position.mk (Z.of_nat r) (Z.of_nat c)) /\
  Position.in_grid (Position.mk (Z.of_nat r) (Z.of_nat c)) = true.
Proof.
  intros Hr Hc.
  assert (H : Position.in_grid (Position.mk (Z.of_nat r) (Z.of_nat c)) = true).
  { unfold Position.in_grid. simpl Position.row. simpl Position.col.
    rewrite !andb_true_iff, !Z.leb_le, !Z.ltb_lt. lia. }
  split; [|exact H]. unfold Position.of_coords. simpl fst. simpl snd.
  by rewrite H.
Qed.

(** Marking the labels of one row writes that row into a grid whose row is
    still clear from the current column on. *)
Lemma visited_row_mark row :
  forall (r : nat) (done : list bool) (V : list (list bool)),
    (r < BOARD_ROWS)%nat ->
    V !! r = Some (done ++ replicate (length row) false) ->
    (length done + length row = BOARD_COLS)%nat ->
    exists labels,
      visited_row r (length done) row = Ok labels /\
      Forall grid_label labels /\
      forall rest,
        mark_visited V (labels ++ rest)
        = mark_visited (<[r := done ++ row]> V) rest.
Proof.
  induction row as [|b row IH]; intros r done V Hr HV Hlen.
  - exists []. split; [reflexivity|]. split; [done|].
    intros rest. simpl. by rewrite list_insert_id.
  - simpl in Hlen, HV.
    assert (Hlen' : (length (done ++ [b]) + length row = BOARD_COLS)%nat)
      by (rewrite length_app; simpl; lia).
    assert (HS : Datatypes.S (length done) = length (done ++ [b]))
      by (rewrite length_app; simpl; lia).
    destruct b.
    + destruct (of_coords_nat r (length done) Hr ltac:(lia)) as [Hof Hin].
      set (V' := <[r := done ++ true :: replicate (length row) false]> V).
      destruct (IH r (done ++ [true]) V' Hr) as (labels & Hl & Hgood & Hmark).
      { unfold V'. rewrite list_lookup_insert_eq by (by eapply lookup_lt_Some).
        by rewrite <- app_assoc. }
      { exact Hlen'. }
      exists (Position.to_human (Position.mk (Z.of_nat r) (Z.of_nat (length done)))
              :: labels).
      split; [|split].
      * cbn [visited_row]. rewrite Hof. cbn [rbind]. rewrite HS, Hl. reflexivity.
      * constructor; [|exact Hgood]. eexists. split; [exact Hin | reflexivity].
      * intros rest. cbn [app mark_visited].
        rewrite (of_human_to_human _ Hin). cbn [rbind Position.to_coords].
        cbn [Position.row Position.col].
        rewrite (grid_set_next V r done false _ true HV). cbn [rbind].
        fold V'. rewrite Hmark. unfold V'. rewrite list_insert_insert_eq.
        by rewrite <- app_assoc.
    + destruct (IH r (done ++ [false]) V Hr) as (labels & Hl & Hgood & Hmark).
      { by rewrite <- app_assoc. }
      { exact Hlen'. }
      exists labels. split; [|split].
      * cbn [visited_row]. by rewrite HS.
      * exact Hgood.
      * intros rest. rewrite Hmark. by rewrite <- app_assoc.
Qed.

Lemma visited_rows_mark rows :
  forall doneRows : list (list bool),
    (length doneRows + length rows = BOARD_ROWS)%nat ->
    Forall (fun row => length row = BOARD_COLS) rows ->
    exists labels,
      visited_rows (length doneRows) rows = Ok labels /\
      Forall grid_label labels /\
      forall rest,
        mark_visited
          (doneRows ++ replicate (length rows) (replicate BOARD_COLS false))
          (labels ++ rest)
        = mark_visited (doneRows ++ rows) rest.
Proof.
  induction rows as [|row rows IH]; intros doneRows Hlen Hrows.
  - exists []. split; [reflexivity|]. split; [done|]. by intros rest.
  - simpl in Hlen. apply Forall_cons_1 in Hrows as [Hrow Hrows].
    set (V := doneRows ++ replicate (length (row :: rows))
                             (replicate BOARD_COLS false)).
    destruct (visited_row_mark row (length doneRows) [] V)
      as (l1 & Hl1 & Hg1 & Hm1).
    { lia. }
    { unfold V. cbn [length replicate app]. rewrite lookup_at_length.
      by rewrite Hrow. }
    { simpl. lia. }
    destruct (IH (doneRows ++ [row])) as (l2 & Hl2 & Hg2 & Hm2).
    { rewrite length_app. simpl. lia. }
    { exact Hrows. }
    exists (l1 ++ l2). split; [|split].
    + cbn [visited_rows]. simpl length in Hl1. rewrite Hl1. cbn [rbind].
      replace (Datatypes.S (length doneRows)) with (length (doneRows ++ [row]))
        by (rewrite length_app; simpl; lia).
      by rewrite Hl2.
    + by apply Forall_app.
    + intros rest. rewrite <- app_assoc. fold V. rewrite Hm1.
      unfold V. cbn [length replicate app]. rewrite insert_at_length.
      transitivity
        (mark_visited
           ((doneRows ++ [row])
              ++ replicate (length rows) (replicate BOARD_COLS false))
           (l2 ++ rest)); [by rewrite <- app_assoc|].
      rewrite Hm2. by rewrite <- app_assoc.
Qed.

(** The visited decoder undoes the visited encoder on every well-shaped
    grid. *)
Lemma process_visited_pos_str_encode v :
  grid_shape v ->
  exists labels,
    visited_rows 0 v = Ok labels /\
    let visited_pos_str :=
      match labels with
      | [] => py "-"
      | _ => join (py ",") labels
      end in
    is_word visited_pos_str /\
    process_visited_pos_str visited_pos_str = Ok v.
Proof.
  intros [Hlen Hrows].
  destruct (visited_rows_mark v [] ltac:(simpl; lia) Hrows)
    as (labels & Hl & Hgood & Hmark).
  exists labels. split; [exact Hl|].
  simpl app in Hmark. rewrite Hlen in Hmark.
  destruct labels as [|l labels].
  - split; [split; [done | by repeat constructor]|].
    specialize (Hmark []). simpl in Hmark. exact Hmark.
  - set (ls := l :: labels) in *.
    assert (Hcomma : Forall (Forall (fun c => c <> ","%char)) ls).
    { eapply Forall_impl; [exact Hgood|]. intros x Hx.
      by destruct (grid_label_class x Hx) as (_ & ? & _). }
    assert (Hspace : Forall (Forall (fun c => is_space c = false)) ls).
    { eapply Forall_impl; [exact Hgood|]. intros x Hx.
      by destruct (grid_label_class x Hx) as (_ & _ & ?). }
    assert (Hl2 : length l = 2%nat).
    { apply Forall_cons_1 in Hgood as [Hx _].
      by destruct (grid_label_class l Hx) as (? & _). }
    assert (Hne : join (py ",") ls <> py "-").
    { unfold ls. destruct l as [|a [|b l]]; try discriminate.
      destruct labels; discriminate. }
    split.
    + split.
      * apply join_nonempty. by destruct l.
      * apply join_Forall; [by repeat constructor | exact Hspace].
    + unfold process_visited_pos_str.
      rewrite bool_decide_eq_false_2 by exact Hne.
      change (py ",") with [","%char]. rewrite split_on_join; [|done|exact Hcomma].
      specialize (Hmark []). rewrite app_nil_r in Hmark. exact Hmark.
Qed.

(** ** The round trip *)

Lemma encode_board_word e g : grid_shape g -> is_word (encode_board e g).
Proof.
  intros Hg. rewrite (encode_board_join e g Hg).
  destruct (grid_shape_rows g Hg) as [Hne Hrows]. split.
  - destruct g as [|row g]; [done|].
    apply Forall_cons_1 in Hrows as [Hrow _].
    cbn [map]. apply join_nonempty. apply rle_row_nonempty; lia.
  - change (py "/") with ["/"%char].
    apply join_Forall; [by repeat constructor|].
    apply Forall_map. eapply Forall_impl; [exact Hrows|].
    intros x Hx. simpl in Hx |- *.
    eapply Forall_impl; [apply (rle_row_chars e x 0); lia|].
    intros c Hc. by apply row_char_class.
Qed.

Lemma turn_str_round_trip e t :
  is_side t ->
  is_word (Piece.to_str e t) /\
  (if bool_decide (Piece.to_str e t = py "W") then Piece.WHITE else Piece.BLACK)
  = t.
Proof.
  intros [-> | ->];
    (split; [split; [done | cbv [Piece.to_str]; by repeat constructor]
            | reflexivity]).
Qed.

Lemma dir_str_round_trip d :
  is_word (Direction.to_str d) /\
  (if bool_decide (Direction.to_str d = py "-") then Ok Direction.X
   else Direction.of_name (Direction.to_str d))
  = Ok d.
Proof.
  destruct d;
    (split; [split; [done | vm_compute list_ascii_of_string; by repeat constructor]
            | reflexivity]).
Qed.

(** C1: for every valid state S (grid and visited grid of the grid's shape,
    WHITE or BLACK to play, any direction, any half-move count) the encoder
    returns a string, and decoding that string gives a state with the grid,
    the side to play, the last direction, the visited grid and the half-move
    count of S. *)
Theorem decode_encode_round_trip :
  forall (EMPTY_str : str) (Piece0 : Piece.t) (s : FanoronaState),
    valid_state s ->
    exists (enc : str) (s' : FanoronaState),
      value (get_board_str EMPTY_str) s = Ok enc /\
      set_from_board_str Piece0 enc = Ok s' /\
      board_state s' = board_state s /\
      turn_to_play s' = turn_to_play s /\
      last_dir s' = last_dir s /\
      visited s' = visited s /\
      half_moves s' = half_moves s.
Proof.
  intros e p0 [g t d v hm] [Hg Ht Hv].
  cbn [board_state turn_to_play last_dir visited half_moves] in *.
  destruct (process_visited_pos_str_encode v Hv) as (labels & Hl & Hvw & Hvd).
  destruct (turn_str_round_trip e t Ht) as [Htw Htd].
  destruct (dir_str_round_trip d) as [Hdw Hdd].
  set (vs := match labels with [] => py "-" | _ => join (py ",") labels end) in *.
  exists (join (py " ")
            [encode_board e g; Piece.to_str e t; Direction.to_str d; vs;
             py_str_int hm]).
  exists (mkState g t d v hm).
  split; [|split; [|done]].
  - unfold value, get_board_str, bind, gets, lift, ret.
    cbn [board_state turn_to_play last_dir visited half_moves fst].
    rewrite Hl. reflexivity.
  - unfold set_from_board_str. rewrite py_split_join.
    + rewrite (process_board_state_str_encode e p0 g Hg). cbn [rbind].
      rewrite Htd, Hdd. cbn [rbind]. rewrite Hvd. cbn [rbind].
      by rewrite py_int_str.
    + constructor; [by apply encode_board_word|].
      constructor; [exact Htw|]. constructor; [exact Hdw|].
      constructor; [exact Hvw|]. constructor; [apply py_str_int_word|].
      constructor.
Qed.

Lemma decode_encode_round_trip_witness :
  exists (enc : str) (s' : FanoronaState),
    value (get_board_str (py "E")) sample_state = Ok enc /\
    set_from_board_str Piece.WHITE enc = Ok s' /\
    board_state s' = board_state sample_state /\
    turn_to_play s' = turn_to_play sample_state /\
    last_dir s' = last_dir sample_state /\
    visited s' = visited sample_state /\
    half_moves s' = half_moves sample_state.
Proof.
  apply (decode_encode_round_trip (py "E") Piece.WHITE sample_state).
  valid_by_evaluation.
Defined.

(** ** Malformed notation *)

Lemma fails_raise {A} (e : exn) : fails (@Raise A e).
Proof. by exists e. Qed.

Lemma fails_rbind {A B} (m : Result A) (k : A -> Result B) :
  fails m -> fails (rbind m k).
Proof. intros [e ->]. by exists e. Qed.

Lemma fails_not_ok {A} (a : A) : ~ fails (Ok a).
Proof. intros [e He]. discriminate He. Qed.

Lemma row_len_insert {A} (G : list (list A)) r cur new i :
  G !! r = Some cur -> length new = length cur ->
  row_len (<[r := new]> G) i = row_len G i.
Proof.
  intros Hr Hlen. unfold row_len.
  destruct (decide (r = i)) as [<- | Hne].
  - rewrite list_lookup_insert_eq by (by eapply lookup_lt_Some). by rewrite Hr.
  - by rewrite list_lookup_insert_ne.
Qed.

(** A store at non-negative indices succeeds exactly inside the row, and
    keeps the shape. *)
Lemma grid_set_nat {A} (G : list (list A)) (r c : nat) v :
  match grid_set G (Z.of_nat r) (Z.of_nat c) v with
  | Ok G' => (c < row_len G r)%nat /\ forall i, row_len G' i = row_len G i
  | Raise _ => (row_len G r <= c)%nat
  end.
Proof.
  unfold grid_set, row_len. rewrite norm_index_nat.
  destruct (decide (r < length G)%nat) as [Hr | Hr]; cbn [rbind].
  - destruct (G !! r) as [cur|] eqn:Er.
    + rewrite norm_index_nat.
      destruct (decide (c < length cur)%nat); cbn [rbind]; [|lia].
      split; [done|]. intros i.
      apply (row_len_insert G r cur); [done | by rewrite length_insert].
    + lia.
  - rewrite lookup_ge_None_2 by lia. lia.
Qed.

Lemma fill_empty_nat n :
  forall (G : list (list Piece.t)) (r c cb : nat),
    match fill_empty G r (seq c n) cb with
    | Ok (G', cb') =>
        (n = 0 \/ c + n <= row_len G r)%nat /\
        (forall i, row_len G' i = row_len G i) /\
        cb' = match n with O => cb | _ => (c + n - 1)%nat end
    | Raise _ => (row_len G r < c + n)%nat
    end.
Proof.
  induction n as [|n IH]; intros G r c cb.
  - simpl. split; [by left|]. done.
  - cbn [seq fill_empty].
    pose proof (grid_set_nat G r c Piece.EMPTY) as Hset.
    destruct (grid_set G (Z.of_nat r) (Z.of_nat c) Piece.EMPTY) as [G1|e];
      cbn [rbind]; [|lia].
    destruct Hset as [Hc Hlen].
    specialize (IH G1 r (Datatypes.S c) c). rewrite Hlen in IH.
    destruct (fill_empty G1 r (seq (Datatypes.S c) n) c) as [[G' cb']|e]; [|lia].
    destruct IH as (Hn & Hlen' & Hcb). split; [right; lia|]. split.
    + intros i. by rewrite Hlen', Hlen.
    + subst cb'. destruct n; lia.
Qed.

(** [int] on a single character. *)
Lemma py_int_single c :
  py_int [c] = match digit_val c with
               | Some d => Ok d
               | None => Raise ValueError
               end.
Proof. destruct c as [[] [] [] [] [] [] [] []]; reflexivity. Qed.

(** The three ways a character of a row string is read. *)
Lemma process_row_cons G r cell rest c :
  process_row G r (cell :: rest) c
  = if ascii_eqb cell "W" || ascii_eqb cell "B" then
      rbind (grid_set G (Z.of_nat r) (Z.of_nat c)
               (if ascii_eqb cell "W" then Piece.WHITE else Piece.BLACK))
        (fun G' => process_row G' r rest (Datatypes.S c))
    else
      match digit_val cell with
      | Some d =>
          rbind (fill_empty G r (seq c (Z.to_nat d)) c)
            (fun gc => process_row gc.1 r rest (Datatypes.S gc.2))
      | None => Raise ValueError
      end.
Proof.
  cbn [process_row]. rewrite py_int_single.
  destruct (ascii_eqb cell "W"), (ascii_eqb cell "B"); try reflexivity.
  by destruct (digit_val cell).
Qed.

Lemma process_row_len r s :
  forall c G G',
    process_row G r s c = Ok G' -> forall i, row_len G' i = row_len G i.
Proof.
  induction s as [|cell s IH]; intros c G G' Hrun i.
  - by injection Hrun as <-.
  - rewrite process_row_cons in Hrun.
    destruct (ascii_eqb cell "W" || ascii_eqb cell "B").
    + pose proof (grid_set_nat G r c
        (if ascii_eqb cell "W" then Piece.WHITE else Piece.BLACK)) as Hset.
      destruct (grid_set _ _ _ _) as [G1|e]; [|discriminate].
      destruct Hset as [_ Hlen]. cbn [rbind] in Hrun.
      by rewrite (IH _ _ _ Hrun i), Hlen.
    + destruct (digit_val cell) as [d|]; [|discriminate].
      pose proof (fill_empty_nat (Z.to_nat d) G r c c) as Hfill.
      destruct (fill_empty _ _ _ _) as [[G1 cb]|e]; [|discriminate].
      destruct Hfill as (_ & Hlen & _). cbn [rbind fst snd] in Hrun.
      by rewrite (IH _ _ _ Hrun i), Hlen.
Qed.

(** A row string that takes more columns than the row has left cannot be
    read. *)
Lemma process_row_overrun r s :
  forall c G,
    (0 < row_width s)%nat ->
    (row_len G r < c + row_width s)%nat ->
    fails (process_row G r s c).
Proof.
  induction s as [|cell s IH]; intros c G Hpos Hover; [simpl in Hpos; lia|].
  rewrite process_row_cons. cbn [row_width] in Hpos, Hover.
  unfold cell_width in Hpos, Hover.
  destruct (ascii_eqb cell "W" || ascii_eqb cell "B").
  - pose proof (grid_set_nat G r c
      (if ascii_eqb cell "W" then Piece.WHITE else Piece.BLACK)) as Hset.
    destruct (grid_set _ _ _ _) as [G1|e]; [|apply fails_raise].
    destruct Hset as [Hc Hlen]. cbn [rbind].
    apply IH; rewrite ?Hlen; lia.
  - destruct (digit_val cell) as [d|]; [|apply fails_raise].
    pose proof (fill_empty_nat (Z.to_nat d) G r c c) as Hfill.
    destruct (fill_empty _ _ _ _) as [[G1 cb]|e]; [|apply fails_raise].
    destruct Hfill as (Hn & Hlen & Hcb). cbn [rbind fst snd].
    apply IH; rewrite ?Hlen; subst cb; destruct (Z.to_nat d); lia.
Qed.

Lemma process_rows_overrun rows row :
  forall r G,
    (forall i, row_len G i <= BOARD_COLS)%nat ->
    In row rows ->
    (BOARD_COLS < row_width row)%nat ->
    fails (process_rows G r rows).
Proof.
  induction rows as [|x rows IH]; intros r G Hlen Hin Hw; [done|].
  cbn [process_rows].
  destruct (process_row G r x 0) as [G1|e] eqn:Ex; [|apply fails_raise].
  cbn [rbind]. destruct Hin as [-> | Hin].
  - exfalso. apply (fails_not_ok G1). rewrite <- Ex.
    apply process_row_overrun; [lia|]. specialize (Hlen r). lia.
  - apply (IH _ _); [|done|done].
    intros i. rewrite (process_row_len _ _ _ _ _ Ex). apply Hlen.
Qed.

Lemma fresh_grid_row_len {A} (x : A) i :
  (row_len (replicate BOARD_ROWS (replicate BOARD_COLS x)) i <= BOARD_COLS)%nat.
Proof.
  unfold row_len.
  destruct (replicate BOARD_ROWS (replicate BOARD_COLS x) !! i) as [cur|] eqn:E;
    [|lia].
  apply lookup_replicate in E as [-> _]. by rewrite length_replicate.
Qed.

Lemma mark_visited_invalid labels l :
  forall V,
    In l labels -> fails (Position.of_human l) -> fails (mark_visited V labels).
Proof.
  induction labels as [|x labels IH]; intros V Hin Hbad; [done|].
  cbn [mark_visited].
  destruct (Position.of_human x) as [p|e] eqn:Ex; [|apply fails_raise].
  cbn [rbind]. destruct (Position.to_coords p) as [row col].
  destruct (grid_set V row col true) as [V'|e]; [|apply fails_raise].
  cbn [rbind]. destruct Hin as [-> | Hin].
  - rewrite Ex in Hbad. by apply fails_not_ok in Hbad.
  - by apply IH.
Qed.

Lemma of_name_unknown d :
  (forall x, Direction.name x <> d) -> Direction.of_name d = Raise KeyError.
Proof.
  intros H. unfold Direction.of_name, Direction.members. cbn [find].
  by rewrite !bool_decide_eq_false_2 by apply H.
Qed.

(** ** Counting *)

Lemma filter_three (l : list Piece.t) :
  (length (List.filter (fun c => Piece.eqb c Piece.WHITE) l)
   + length (List.filter (fun c => Piece.eqb c Piece.BLACK) l)
   + length (List.filter (fun c => Piece.eqb c Piece.EMPTY) l))%nat
  = length l.
Proof. induction l as [|[] l IH]; simpl; lia. Qed.

Lemma grid_shape_cells {A} (g : list (list A)) :
  grid_shape g -> length (concat g) = (BOARD_ROWS * BOARD_COLS)%nat.
Proof. intros H. explode_grid H. by subst g. Qed.

Lemma existsb_filter (l : list Piece.t) p :
  existsb (fun c => Piece.eqb c p) l = true
  <-> (0 < length (List.filter (fun c => Piece.eqb c p) l))%nat.
Proof.
  induction l as [|x l IH]; simpl; [split; [discriminate | lia]|].
  destruct (Piece.eqb x p); simpl; [split; [lia | done] | exact IH].
Qed.

(** X1: on a board of the grid's shape count(side) is the number of cells
    that hold [side], and the counts of WHITE, BLACK and EMPTY add up to
    ROWS * COLS. *)
Theorem count_partitions_the_board :
  forall s : FanoronaState,
    grid_shape (board_state s) ->
    exists w b e : Z,
      value (count Piece.WHITE) s = Ok w /\
      value (count Piece.BLACK) s = Ok b /\
      value (count Piece.EMPTY) s = Ok e /\
      w = count_cells (board_state s) Piece.WHITE /\
      b = count_cells (board_state s) Piece.BLACK /\
      e = count_cells (board_state s) Piece.EMPTY /\
      0 <= w /\ 0 <= b /\ 0 <= e /\
      w + b + e = Z.of_nat (BOARD_ROWS * BOARD_COLS).
Proof.
  intros s Hg. unfold value. rewrite !(count_run s _ Hg).
  do 3 eexists. repeat (split; [reflexivity|]).
  unfold count_cells.
  pose proof (filter_three (concat (board_state s))) as H3.
  rewrite (grid_shape_cells _ Hg) in H3. lia.
Qed.

Lemma count_partitions_the_board_witness :
  exists w b e : Z,
    value (count Piece.WHITE) sample_state = Ok w /\
    value (count Piece.BLACK) sample_state = Ok b /\
    value (count Piece.EMPTY) sample_state = Ok e /\
    w = count_cells (board_state sample_state) Piece.WHITE /\
    b = count_cells (board_state sample_state) Piece.BLACK /\
    e = count_cells (board_state sample_state) Piece.EMPTY /\
    0 <= w /\ 0 <= b /\ 0 <= e /\
    w + b + e = Z.of_nat (BOARD_ROWS * BOARD_COLS).
Proof.
  apply (count_partitions_the_board sample_state).
  split; [reflexivity | repeat constructor].
Defined.

(** X2: on a board of the grid's shape piece_exists(piece) is true exactly
    when count(piece) is positive. *)
Theorem piece_exists_iff_count_positive :
  forall (s : FanoronaState) (piece : Piece.t),
    grid_shape (board_state s) ->
    exists (b : bool) (n : Z),
      value (piece_exists piece) s = Ok b /\
      value (count piece) s = Ok n /\
      (b = true <-> 0 < n).
Proof.
  intros s piece Hg. unfold value.
  rewrite (piece_exists_run s _ Hg), (count_run s _ Hg).
  do 2 eexists. split; [reflexivity|]. split; [reflexivity|].
  unfold has_piece_b, count_cells. rewrite existsb_filter. lia.
Qed.

Lemma piece_exists_iff_count_positive_witness :
  exists (b : bool) (n : Z),
    value (piece_exists Piece.EMPTY) sample_state = Ok b /\
    value (count Piece.EMPTY) sample_state = Ok n /\
    (b = true <-> 0 < n).
Proof.
  apply (piece_exists_iff_count_positive sample_state Piece.EMPTY).
  split; [reflexivity | repeat constructor].
Defined.

(** ** Utility and terminal states together *)

Lemma utility_at_limit L s side :
  L <= half_moves s -> utility L side s = (Ok (Tag Reward.DRAW), s).
Proof.
  intros H. apply Z.leb_le in H. unfold utility, bind, gets. by rewrite H.
Qed.

(** What utility returns on a valid state, in one expression. *)
Lemma utility_value L s side side' o :
  grid_shape (board_state s) ->
  Piece.other (turn_to_play s) = Ok o ->
  Piece.other side = Ok side' ->
  value (utility L side) s
  = Ok (if L <=? half_moves s then Tag Reward.DRAW
        else if has_piece_b (board_state s) (turn_to_play s)
                && has_piece_b (board_state s) o
        then Score (count_cells (board_state s) side
                    - count_cells (board_state s) side')
        else if Piece.eqb side
                  (if has_piece_b (board_state s) (turn_to_play s)
                   then turn_to_play s else o)
        then Tag Reward.WIN else Tag Reward.LOSS).
Proof.
  intros Hg Ho Hside. unfold value.
  destruct (Z.leb_spec L (half_moves s)) as [Hle | Hlt].
  - by rewrite utility_at_limit.
  - by rewrite (utility_run L s side side' o Hg Hlt Ho Hside).
Qed.

(** X3: on a valid state utility(side) is a Reward tag exactly when
    is_done() is true, and an integer score exactly when it is false. *)
Theorem utility_is_tag_iff_done :
  forall (MOVE_LIMIT : Z) (s : FanoronaState) (side : Piece.t),
    valid_state s ->
    is_side side ->
    exists (b : bool) (u : Utility),
      value (is_done MOVE_LIMIT) s = Ok b /\
      value (utility MOVE_LIMIT side) s = Ok u /\
      (b = true <-> exists r, u = Tag r) /\
      (b = false <-> exists z, u = Score z).
Proof.
  intros L s side [Hg Ht _] Hside.
  destruct (is_side_other _ Ht) as (o & Ho & _).
  destruct (is_side_other _ Hside) as (side' & Hs' & _).
  do 2 eexists. split; [unfold value; by rewrite (is_done_run L s o Hg Ho)|].
  split; [exact (utility_value L s side side' o Hg Ho Hs')|].
  simpl fst.
  destruct (L <=? half_moves s); simpl orb.
  - split; split; try done; [by eexists | by intros [z Hz]].
  - destruct (has_piece_b (board_state s) (turn_to_play s)
              && has_piece_b (board_state s) o); simpl negb.
    + split; split; try done; [by intros [r Hr] | by eexists].
    + destruct (Piece.eqb side _);
        (split; split; try done; [by eexists | by intros [z Hz]]).
Qed.

Lemma utility_is_tag_iff_done_witness :
  exists (b : bool) (u : Utility),
    value (is_done 44) sample_state = Ok b /\
    value (utility 44 Piece.WHITE) sample_state = Ok u /\
    (b = true <-> exists r, u = Tag r) /\
    (b = false <-> exists z, u = Score z).
Proof.
  apply (utility_is_tag_iff_done 44 sample_state Piece.WHITE);
    [valid_by_evaluation | by left].
Defined.

(** X4: on a valid state the utilities of the two sides are opposite: a
    score and its negation, WIN and LOSS, or DRAW twice. *)
Theorem utility_is_zero_sum :
  forall (MOVE_LIMIT : Z) (s : FanoronaState),
    valid_state s ->
    exists u : Utility,
      value (utility MOVE_LIMIT Piece.WHITE) s = Ok u /\
      value (utility MOVE_LIMIT Piece.BLACK) s = Ok (negate u).
Proof.
  intros L s [Hg Ht _].
  destruct (is_side_other _ Ht) as (o & Ho & _).
  eexists.
  split; [exact (utility_value L s Piece.WHITE Piece.BLACK o Hg Ho eq_refl)|].
  rewrite (utility_value L s Piece.BLACK Piece.WHITE o Hg Ho eq_refl).
  f_equal.
  destruct (L <=? half_moves s); [done|].
  destruct (has_piece_b (board_state s) (turn_to_play s)) eqn:Et,
    (has_piece_b (board_state s) o) eqn:Eo; simpl andb; cbv iota.
  - simpl. f_equal. lia.
  - destruct Ht as [-> | ->]; reflexivity.
  - destruct Ht as [E | E]; rewrite E in Ho; injection Ho as <-; reflexivity.
  - destruct Ht as [E | E]; rewrite E in Ho; injection Ho as <-; reflexivity.
Qed.

Lemma utility_is_zero_sum_witness :
  exists u : Utility,
    value (utility 44 Piece.WHITE) sample_state = Ok u /\
    value (utility 44 Piece.BLACK) sample_state = Ok (negate u).
Proof. apply (utility_is_zero_sum 44 sample_state). valid_by_evaluation. Defined.

(** X5: when utility(side) is an integer score on a valid state, both sides
    have a piece, so the score lies strictly between -(ROWS * COLS - 1) and
    ROWS * COLS - 1. *)
Theorem utility_score_bounds :
  forall (MOVE_LIMIT : Z) (s : FanoronaState) (side : Piece.t) (z : Z),
    valid_state s ->
    is_side side ->
    value (utility MOVE_LIMIT side) s = Ok (Score z) ->
    has_piece (board_state s) Piece.WHITE /\
    has_piece (board_state s) Piece.BLACK /\
    - (Z.of_nat (BOARD_ROWS * BOARD_COLS) - 1) < z
      < Z.of_nat (BOARD_ROWS * BOARD_COLS) - 1.
Proof.
  intros L s side z [Hg Ht _] Hside Hu.
  destruct (is_side_other _ Ht) as (o & Ho & _).
  destruct (is_side_other _ Hside) as (side' & Hs' & _).
  rewrite (utility_value L s side side' o Hg Ho Hs') in Hu.
  destruct (L <=? half_moves s); [discriminate|].
  destruct (has_piece_b (board_state s) (turn_to_play s)) eqn:Et;
    [|simpl in Hu; destruct (Piece.eqb side _); discriminate].
  destruct (has_piece_b (board_state s) o) eqn:Eo;
    [|simpl in Hu; destruct (Piece.eqb side _); discriminate].
  simpl in Hu. injection Hu as <-.
  assert (HW : has_piece_b (board_state s) Piece.WHITE = true
               /\ has_piece_b (board_state s) Piece.BLACK = true).
  { destruct Ht as [E | E]; rewrite E in *; injection Ho as <-; by split. }
  destruct HW as [HW HB].
  split; [by apply has_piece_b_iff|]. split; [by apply has_piece_b_iff|].
  pose proof (filter_three (concat (board_state s))) as H3.
  rewrite (grid_shape_cells _ Hg) in H3.
  unfold has_piece_b in HW, HB. apply existsb_filter in HW, HB.
  unfold count_cells.
  destruct Hside as [-> | ->]; injection Hs' as <-; lia.
Qed.

Lemma utility_score_bounds_witness :
  has_piece (board_state sample_state) Piece.WHITE /\
  has_piece (board_state sample_state) Piece.BLACK /\
  - (Z.of_nat (BOARD_ROWS * BOARD_COLS) - 1) < 0
    < Z.of_nat (BOARD_ROWS * BOARD_COLS) - 1.
Proof.
  apply (utility_score_bounds 44 sample_state Piece.WHITE 0);
    [valid_by_evaluation | by left | reflexivity].
Defined.

(** X6: a terminal state stays terminal when only the half-move count
    grows: with the same board and side to move, is_done() true at
    half_moves h is true at every h' >= h. *)
Theorem is_done_monotone_in_half_moves :
  forall (MOVE_LIMIT : Z) (s s' : FanoronaState),
    valid_state s ->
    board_state s' = board_state s ->
    turn_to_play s' = turn_to_play s ->
    half_moves s <= half_moves s' ->
    value (is_done MOVE_LIMIT) s = Ok true ->
    value (is_done MOVE_LIMIT) s' = Ok true.
Proof.
  intros L s s' [Hg Ht _] Hb Htu Hhm Hdone.
  destruct (is_side_other _ Ht) as (o & Ho & _).
  assert (Hg' : grid_shape (board_state s')) by (by rewrite Hb).
  assert (Ho' : Piece.other (turn_to_play s') = Ok o) by (by rewrite Htu).
  unfold value in *.
  rewrite (is_done_run L s o Hg Ho) in Hdone.
  rewrite (is_done_run L s' o Hg' Ho'). simpl in *.
  rewrite Hb, Htu. injection Hdone as Hdone. f_equal.
  apply orb_true_iff in Hdone as [Hl | Hp]; [|by rewrite Hp, orb_true_r].
  apply Z.leb_le in Hl.
  rewrite (proj2 (Z.leb_le L (half_moves s'))) by lia. done.
Qed.

Lemma is_done_monotone_in_half_moves_witness :
  value (is_done 3) (mkState (board_state sample_state) Piece.BLACK
                       Direction.X (visited sample_state) 7) = Ok true.
Proof.
  apply (is_done_monotone_in_half_moves 3 sample_state);
    [valid_by_evaluation | reflexivity | reflexivity | simpl; lia | reflexivity].
Defined.

(** ** Methods that do not look at the visited grid *)

Lemma ignores_visited_ret {A} (a : A) : ignores_visited (ret a).
Proof. by intros s v. Qed.

Lemma ignores_visited_lift {A} (r : Result A) : ignores_visited (lift r).
Proof. by intros s v. Qed.

Lemma ignores_visited_gets {A} (f : FanoronaState -> A) :
  (forall s v, f (with_visited s v) = f s) -> ignores_visited (gets f).
Proof. intros Hf s v. unfold gets. by rewrite Hf. Qed.

Lemma ignores_visited_bind {A B} (m : Method A) (k : A -> Method B) :
  ignores_visited m -> (forall a, ignores_visited (k a)) ->
  ignores_visited (bind m k).
Proof.
  intros Hm Hk s v. unfold bind. rewrite Hm.
  destruct (m s) as [[a|e] s1]; simpl; [apply Hk | reflexivity].
Qed.

Lemma ignores_visited_if {A} (b : bool) (m1 m2 : Method A) :
  ignores_visited m1 -> ignores_visited m2 ->
  ignores_visited (if b then m1 else m2).
Proof. by destruct b. Qed.

Create HintDb visited.
#[local] Hint Resolve ignores_visited_ret ignores_visited_lift
  ignores_visited_bind ignores_visited_if : visited.
#[local] Hint Extern 1 (ignores_visited (gets _)) =>
  apply ignores_visited_gets; reflexivity : visited.

Lemma ignores_visited_get_piece pos : ignores_visited (get_piece pos).
Proof. unfold get_piece. auto 10 with visited. Qed.
#[local] Hint Resolve ignores_visited_get_piece : visited.

Lemma ignores_visited_count side : ignores_visited (count side).
Proof.
  unfold count. apply ignores_visited_bind; [|auto with visited].
  induction Position.pos_range; simpl; auto 10 with visited.
Qed.

Lemma ignores_visited_piece_exists piece : ignores_visited (piece_exists piece).
Proof.
  unfold piece_exists. induction Position.pos_range; simpl; auto 10 with visited.
Qed.

Lemma ignores_visited_other_side : ignores_visited other_side.
Proof. unfold other_side. auto with visited. Qed.
#[local] Hint Resolve ignores_visited_count ignores_visited_piece_exists
  ignores_visited_other_side : visited.

Lemma ignores_visited_is_done L : ignores_visited (is_done L).
Proof.
  unfold is_done.
  repeat (first [ apply ignores_visited_bind; [auto with visited | intros ]
                | apply ignores_visited_if | solve [auto with visited] ]).
Qed.
#[local] Hint Resolve ignores_visited_is_done : visited.

Lemma ignores_visited_utility L side : ignores_visited (utility L side).
Proof.
  unfold utility.
  repeat (first [ apply ignores_visited_bind; [auto with visited | intros ]
                | apply ignores_visited_if | solve [auto with visited] ]).
Qed.

Lemma ignores_visited_in_capturing_seq : ignores_visited in_capturing_seq.
Proof. unfold in_capturing_seq. auto with visited. Qed.

Lemma ignores_visited_value {A} (m : Method A) s v :
  ignores_visited m -> value m (with_visited s v) = value m s.
Proof. intros H. unfold value. by rewrite H. Qed.

(** X7: reset_visited_pos() changes no answer of the queries: get_piece,
    count, piece_exists, is_done, utility and in_capturing_seq return after it
    what they returned before it; and a second reset_visited_pos() returns
    normally and changes nothing. *)
Theorem reset_visited_pos_keeps_queries :
  forall (MOVE_LIMIT : Z) (s : FanoronaState) (pos : Position.t)
         (side : Piece.t),
    grid_shape (visited s) ->
    let s' := after reset_visited_pos s in
    value (get_piece pos) s' = value (get_piece pos) s /\
    value (count side) s' = value (count side) s /\
    value (piece_exists side) s' = value (piece_exists side) s /\
    value (is_done MOVE_LIMIT) s' = value (is_done MOVE_LIMIT) s /\
    value (utility MOVE_LIMIT side) s' = value (utility MOVE_LIMIT side) s /\
    value in_capturing_seq s' = value in_capturing_seq s /\
    value reset_visited_pos s' = Ok tt /\
    after reset_visited_pos s' = s'.
Proof.
  intros L s pos side Hv s'.
  assert (Es : s' = with_visited s
                      (replicate BOARD_ROWS (replicate BOARD_COLS false))).
  { unfold s', after. by rewrite (reset_visited_pos_run s Hv). }
  rewrite Es.
  repeat (split; [apply ignores_visited_value; auto with visited|]).
  - apply ignores_visited_utility.
  - apply ignores_visited_in_capturing_seq.
  - unfold value, after. rewrite reset_visited_pos_run.
    + by split.
    + split; [reflexivity | repeat constructor].
Qed.

Lemma reset_visited_pos_keeps_queries_witness :
  let s' := after reset_visited_pos sample_state in
  value (get_piece (Position.mk 2 4)) s'
  = value (get_piece (Position.mk 2 4)) sample_state /\
  value (count Piece.WHITE) s' = value (count Piece.WHITE) sample_state /\
  value (piece_exists Piece.WHITE) s'
  = value (piece_exists Piece.WHITE) sample_state /\
  value (is_done 44) s' = value (is_done 44) sample_state /\
  value (utility 44 Piece.WHITE) s'
  = value (utility 44 Piece.WHITE) sample_state /\
  value in_capturing_seq s' = value in_capturing_seq sample_state /\
  value reset_visited_pos s' = Ok tt /\
  after reset_visited_pos s' = s'.
Proof.
  apply (reset_visited_pos_keeps_queries 44 sample_state (Position.mk 2 4)
           Piece.WHITE).
  split; [reflexivity | repeat constructor].
Defined.

(** ** The shape of the notation *)

Lemma get_board_str_run e s labels :
  visited_rows 0 (visited s) = Ok labels ->
  get_board_str e s = (Ok (join (py " ") (notation_fields e s labels)), s).
Proof.
  intros Hl. unfold get_board_str, bind, gets, lift, ret. by rewrite Hl.
Qed.

Lemma notation_fields_words e s :
  valid_state s ->
  exists labels,
    visited_rows 0 (visited s) = Ok labels /\
    Forall is_word (notation_fields e s labels) /\
    process_visited_pos_str
      (match labels with [] => py "-" | _ => join (py ",") labels end)
    = Ok (visited s).
Proof.
  intros [Hg Ht Hv].
  destruct (process_visited_pos_str_encode _ Hv) as (labels & Hl & Hvw & Hvd).
  exists labels. split; [exact Hl|]. split; [|exact Hvd].
  constructor; [by apply encode_board_word|].
  constructor; [by apply turn_str_round_trip|].
  constructor; [apply dir_str_round_trip|].
  constructor; [exact Hvw|]. constructor; [apply py_str_int_word|].
  constructor.
Qed.

(** The encoder's string decodes to the state it was written from. *)
Lemma get_board_str_decodes e p0 s :
  valid_state s ->
  exists enc, get_board_str e s = (Ok enc, s) /\ set_from_board_str p0 enc = Ok s.
Proof.
  intros Hs. destruct (notation_fields_words e s Hs) as (labels & Hl & Hw & Hvd).
  eexists. split; [exact (get_board_str_run e s labels Hl)|].
  destruct Hs as [Hg Ht Hv]. destruct s as [g t d v hm].
  cbn [board_state turn_to_play last_dir visited half_moves] in *.
  unfold set_from_board_str. rewrite py_split_join by exact Hw.
  unfold notation_fields.
  cbn [board_state turn_to_play last_dir visited half_moves].
  rewrite (process_board_state_str_encode e p0 g Hg). cbn [rbind].
  rewrite (proj2 (turn_str_round_trip e t Ht)).
  rewrite (proj2 (dir_str_round_trip d)). cbn [rbind].
  rewrite Hvd. cbn [rbind]. by rewrite py_int_str.
Qed.

(** X8: the notation of a valid state is its five fields joined by single
    spaces, [split()] gives back exactly these five, the board field has
    ROWS parts between [/], the turn field is W or B, and the half-move field
    is the decimal text of half_moves. *)
Theorem notation_has_five_fields :
  forall (EMPTY_str : str) (s : FanoronaState),
    valid_state s ->
    exists enc b t d v h : str,
      value (get_board_str EMPTY_str) s = Ok enc /\
      enc = join (py " ") [b; t; d; v; h] /\
      py_split enc = [b; t; d; v; h] /\
      length (split_on "/" b) = BOARD_ROWS /\
      (t = py "W" \/ t = py "B") /\
      d = Direction.to_str (last_dir s) /\
      h = py_str_int (half_moves s).
Proof.
  intros e s Hs. destruct (notation_fields_words e s Hs) as (labels & Hl & Hw & _).
  do 6 eexists. split; [unfold value; by rewrite (get_board_str_run e s labels Hl)|].
  split; [reflexivity|]. split; [by apply py_split_join|].
  destruct Hs as [Hg Ht _]. split.
  - destruct (board_string_parts e _ Hg) as [_ ->].
    rewrite length_map. apply Hg.
  - split; [|done]. destruct Ht as [-> | ->]; [by left | by right].
Qed.

Lemma notation_has_five_fields_witness :
  exists enc b t d v h : str,
    value (get_board_str (py "E")) sample_state = Ok enc /\
    enc = join (py " ") [b; t; d; v; h] /\
    py_split enc = [b; t; d; v; h] /\
    length (split_on "/" b) = BOARD_ROWS /\
    (t = py "W" \/ t = py "B") /\
    d = Direction.to_str (last_dir sample_state) /\
    h = py_str_int (half_moves sample_state).
Proof.
  apply (notation_has_five_fields (py "E") sample_state). valid_by_evaluation.
Defined.

(** X9: after reset_visited_pos() the visited field of the notation is
    [-], and the other four fields are those of the notation before it. *)
Theorem reset_visited_pos_writes_dash :
  forall (EMPTY_str : str) (s : FanoronaState),
    valid_state s ->
    exists enc enc' b t d v h : str,
      value (get_board_str EMPTY_str) s = Ok enc /\
      value (get_board_str EMPTY_str) (after reset_visited_pos s) = Ok enc' /\
      py_split enc = [b; t; d; v; h] /\
      py_split enc' = [b; t; d; py "-"; h].
Proof.
  intros e s Hs. destruct (notation_fields_words e s Hs) as (labels & Hl & Hw & _).
  pose proof Hs as [Hg Ht Hv].
  set (s' := after reset_visited_pos s).
  assert (Es : s' = with_visited s
                      (replicate BOARD_ROWS (replicate BOARD_COLS false))).
  { unfold s', after. by rewrite (reset_visited_pos_run s Hv). }
  assert (Hl' : visited_rows 0 (visited s') = Ok []) by (by rewrite Es).
  assert (Hs' : valid_state s').
  { rewrite Es. split; try done. split; [reflexivity | repeat constructor]. }
  destruct (notation_fields_words e s' Hs') as (labels' & Hl2 & Hw' & _).
  rewrite Hl' in Hl2. injection Hl2 as <-.
  do 7 eexists. unfold value.
  rewrite (get_board_str_run e s labels Hl), (get_board_str_run e s' [] Hl').
  split; [reflexivity|]. split; [reflexivity|].
  rewrite !py_split_join by done. split; [reflexivity|].
  unfold notation_fields. by rewrite Es.
Qed.

Lemma reset_visited_pos_writes_dash_witness :
  exists enc enc' b t d v h : str,
    value (get_board_str (py "E")) sample_state = Ok enc /\
    value (get_board_str (py "E")) (after reset_visited_pos sample_state)
    = Ok enc' /\
    py_split enc = [b; t; d; v; h] /\
    py_split enc' = [b; t; d; py "-"; h].
Proof.
  apply (reset_visited_pos_writes_dash (py "E") sample_state).
  valid_by_evaluation.
Defined.

(** X10: the notation tells valid states apart: two valid states with the
    same notation are the same state. *)
Theorem notation_is_injective :
  forall (EMPTY_str : str) (s1 s2 : FanoronaState),
    valid_state s1 ->
    valid_state s2 ->
    value (get_board_str EMPTY_str) s1 = value (get_board_str EMPTY_str) s2 ->
    s1 = s2.
Proof.
  intros e s1 s2 H1 H2 Heq.
  destruct (get_board_str_decodes e Piece.EMPTY s1 H1) as (enc1 & Hr1 & Hd1).
  destruct (get_board_str_decodes e Piece.EMPTY s2 H2) as (enc2 & Hr2 & Hd2).
  unfold value in Heq. rewrite Hr1, Hr2 in Heq. simpl in Heq.
  injection Heq as ->. rewrite Hd1 in Hd2. by injection Hd2.
Qed.

Lemma notation_is_injective_witness : sample_state = sample_state.
Proof.
  apply (notation_is_injective (py "E") sample_state sample_state);
    [valid_by_evaluation | valid_by_evaluation | reflexivity].
Defined.

(** ** [str] and [repr] *)

Lemma is_word_snoc w c : is_word w -> is_space c = false -> is_word (w ++ [c]).
Proof.
  intros [Hne Hw] Hc. split; [by destruct w|].
  apply Forall_app. split; [done | by constructor].
Qed.

(** X11: on a valid state str(self) is the notation, which decodes back to
    the state; repr(self) is that notation between "<FanoronaState: " and
    ">", leaves the state unchanged, and is itself rejected by the decoder
    with ValueError, because it splits into six fields. *)
Theorem repr_wraps_the_notation :
  forall (EMPTY_str : str) (Piece0 : Piece.t) (s : FanoronaState),
    valid_state s ->
    exists enc : str,
      value (__str__ EMPTY_str) s = Ok enc /\
      set_from_board_str Piece0 enc = Ok s /\
      value (__repr__ EMPTY_str) s = Ok (py "<FanoronaState: " ++ enc ++ py ">") /\
      after (__repr__ EMPTY_str) s = s /\
      set_from_board_str Piece0 (py "<FanoronaState: " ++ enc ++ py ">")
      = Raise ValueError.
Proof.
  intros e p0 s Hs.
  destruct (notation_fields_words e s Hs) as (labels & Hl & Hw & _).
  destruct (get_board_str_decodes e p0 s Hs) as (enc & Hrun & Hdec).
  pose proof (get_board_str_run e s labels Hl) as Hrun'.
  assert (Henc : enc = join (py " ") (notation_fields e s labels))
    by congruence.
  clear Hrun'. exists enc. unfold value, after, __repr__, __str__, bind, ret. rewrite Hrun.
  split; [done|]. split; [done|]. split; [done|]. split; [done|].
  unfold notation_fields in Henc, Hw.
  set (b := encode_board e (board_state s)) in *.
  set (t := Piece.to_str e (turn_to_play s)) in *.
  set (d := Direction.to_str (last_dir s)) in *.
  set (v := match labels with [] => py "-" | _ => join (py ",") labels end) in *.
  set (h := py_str_int (half_moves s)) in *.
  assert (E : py "<FanoronaState: " ++ enc ++ py ">"
              = join (py " ") [py "<FanoronaState:"; b; t; d; v; h ++ py ">"]).
  { rewrite Henc. cbn [join]. change (py "<FanoronaState: ")
      with (py "<FanoronaState:" ++ py " ").
    by rewrite <- !app_assoc. }
  apply Forall_cons_1 in Hw as [Hb Hw]. apply Forall_cons_1 in Hw as [Ht Hw].
  apply Forall_cons_1 in Hw as [Hd Hw]. apply Forall_cons_1 in Hw as [Hv Hw].
  apply Forall_cons_1 in Hw as [Hh _].
  unfold set_from_board_str. rewrite E, py_split_join; [reflexivity|].
  constructor; [split; [done | vm_compute py; by repeat constructor]|].
  repeat (constructor; [done|]).
  constructor; [by apply is_word_snoc | constructor].
Qed.

Lemma repr_wraps_the_notation_witness :
  exists enc : str,
    value (__str__ (py "E")) sample_state = Ok enc /\
    set_from_board_str Piece.EMPTY enc = Ok sample_state /\
    value (__repr__ (py "E")) sample_state
    = Ok (py "<FanoronaState: " ++ enc ++ py ">") /\
    after (__repr__ (py "E")) sample_state = sample_state /\
    set_from_board_str Piece.EMPTY (py "<FanoronaState: " ++ enc ++ py ">")
    = Raise ValueError.
Proof.
  apply (repr_wraps_the_notation (py "E") Piece.EMPTY sample_state).
  valid_by_evaluation.
Defined.

(** ** What every decoded state satisfies *)

Lemma same_shape_refl {A} (G : list (list A)) : same_shape G G.
Proof. by split. Qed.

Lemma same_shape_trans {A} (G1 G2 G3 : list (list A)) :
  same_shape G1 G2 -> same_shape G2 G3 -> same_shape G1 G3.
Proof.
  intros [Hl1 Hr1] [Hl2 Hr2]. split; [congruence|].
  intros i. by rewrite Hr2, Hr1.
Qed.

Lemma same_shape_grid_shape {A} (G G' : list (list A)) :
  grid_shape G -> same_shape G G' -> grid_shape G'.
Proof.
  intros HG [Hlen Hrows]. pose proof HG as [HlG _].
  split; [congruence|]. apply Forall_lookup. intros i row Hi.
  pose proof (lookup_lt_Some _ _ _ Hi) as Hlt. rewrite Hlen in Hlt.
  destruct (lookup_lt_is_Some_2 G i Hlt) as [row0 Hi0].
  specialize (Hrows i). unfold row_len in Hrows. rewrite Hi, Hi0 in Hrows.
  rewrite Hrows. by apply (grid_shape_row G i).
Qed.

(** A store that succeeds keeps the shape of the grid, whatever the
    subscripts. *)
Lemma grid_set_shape {A} (G : list (list A)) r c v G' :
  grid_set G r c v = Ok G' -> same_shape G G'.
Proof.
  unfold grid_set. intros H.
  destruct (norm_index (length G) r) as [i|]; [|discriminate]. cbn [rbind] in H.
  destruct (G !! i) as [row|] eqn:Ei; [|discriminate].
  destruct (norm_index (length row) c) as [j|]; [|discriminate].
  cbn [rbind] in H. injection H as <-. split; [apply length_insert|].
  intros k. apply (row_len_insert G i row); [done | apply length_insert].
Qed.

Lemma fill_empty_shape cols :
  forall G r cb G' cb',
    fill_empty G r cols cb = Ok (G', cb') -> same_shape G G'.
Proof.
  induction cols as [|c cols IH]; intros G r cb G' cb' H.
  - injection H as <- _. apply same_shape_refl.
  - cbn [fill_empty] in H.
    destruct (grid_set G (Z.of_nat r) (Z.of_nat c) Piece.EMPTY) as [G1|] eqn:E1;
      [|discriminate].
    cbn [rbind] in H.
    eapply same_shape_trans; [by eapply grid_set_shape | by eapply IH].
Qed.

Lemma process_row_shape s :
  forall G r c G', process_row G r s c = Ok G' -> same_shape G G'.
Proof.
  induction s as [|cell s IH]; intros G r c G' H.
  - injection H as <-. apply same_shape_refl.
  - rewrite process_row_cons in H.
    destruct (ascii_eqb cell "W" || ascii_eqb cell "B").
    + destruct (grid_set G _ _ _) as [G1|] eqn:E1; [|discriminate].
      cbn [rbind] in H.
      eapply same_shape_trans; [by eapply grid_set_shape | by eapply IH].
    + destruct (digit_val cell) as [d|]; [|discriminate].
      destruct (fill_empty G r _ c) as [[G1 cb]|] eqn:E1; [|discriminate].
      cbn [rbind fst snd] in H.
      eapply same_shape_trans; [by eapply fill_empty_shape | by eapply IH].
Qed.

Lemma process_rows_shape rows :
  forall G r G', process_rows G r rows = Ok G' -> same_shape G G'.
Proof.
  induction rows as [|x rows IH]; intros G r G' H.
  - injection H as <-. apply same_shape_refl.
  - cbn [process_rows] in H.
    destruct (process_row G r x 0) as [G1|] eqn:E1; [|discriminate].
    cbn [rbind] in H.
    eapply same_shape_trans; [by eapply process_row_shape | by eapply IH].
Qed.

Lemma mark_visited_shape labels :
  forall V V', mark_visited V labels = Ok V' -> same_shape V V'.
Proof.
  induction labels as [|l labels IH]; intros V V' H.
  - injection H as <-. apply same_shape_refl.
  - cbn [mark_visited] in H.
    destruct (Position.of_human l) as [p|]; [|discriminate]. cbn [rbind] in H.
    destruct (Position.to_coords p) as [row col].
    destruct (grid_set V row col true) as [V1|] eqn:E1; [|discriminate].
    cbn [rbind] in H.
    eapply same_shape_trans; [by eapply grid_set_shape | by eapply IH].
Qed.

Lemma fresh_grid_shape {A} (x : A) :
  grid_shape (replicate BOARD_ROWS (replicate BOARD_COLS x)).
Proof. split; [reflexivity | repeat constructor]. Qed.

(** What a successful decoding did, field by field. *)
Lemma set_from_board_str_inv p0 board_string s :
  set_from_board_str p0 board_string = Ok s ->
  exists b t d v h,
    py_split board_string = [b; t; d; v; h] /\
    process_board_state_str p0 b = Ok (board_state s) /\
    turn_to_play s
    = (if bool_decide (t = py "W") then Piece.WHITE else Piece.BLACK) /\
    (if bool_decide (d = py "-") then Ok Direction.X else Direction.of_name d)
    = Ok (last_dir s) /\
    process_visited_pos_str v = Ok (visited s) /\
    py_int h = Ok (half_moves s).
Proof.
  unfold set_from_board_str. intros H.
  destruct (py_split board_string) as [|b [|t [|d [|v [|h [|? ?]]]]]];
    try discriminate.
  destruct (process_board_state_str p0 b) as [g|] eqn:Eb; [|discriminate].
  cbn [rbind] in H.
  destruct (if bool_decide (d = py "-") then _ else _) as [dir|] eqn:Ed;
    [|discriminate].
  cbn [rbind] in H.
  destruct (process_visited_pos_str v) as [vis|] eqn:Ev; [|discriminate].
  cbn [rbind] in H.
  destruct (py_int h) as [hm|] eqn:Eh; [|discriminate].
  cbn [rbind] in H. injection H as <-. by exists b, t, d, v, h.
Qed.

Lemma set_from_board_str_valid p0 board_string s :
  set_from_board_str p0 board_string = Ok s -> valid_state s.
Proof.
  intros H.
  destruct (set_from_board_str_inv _ _ _ H)
    as (b & t & d & v & h & _ & Hb & Ht & _ & Hv & _).
  split.
  - unfold process_board_state_str in Hb.
    eapply same_shape_grid_shape; [apply fresh_grid_shape|].
    by eapply process_rows_shape.
  - rewrite Ht. destruct (bool_decide (t = py "W")); [by left | by right].
  - unfold process_visited_pos_str in Hv.
    destruct (bool_decide (v = py "-")).
    + injection Hv as <-. apply fresh_grid_shape.
    + eapply same_shape_grid_shape; [apply fresh_grid_shape|].
      by eapply mark_visited_shape.
Qed.

(** X12: every state the decoder returns is a valid state: its board and
    its visited grid have ROWS rows of COLS cells and the side to play is
    WHITE or BLACK, never EMPTY. *)
Theorem decoded_state_is_valid :
  forall (Piece0 : Piece.t) (board_string : str) (s : FanoronaState),
    set_from_board_str Piece0 board_string = Ok s ->
    grid_shape (board_state s) /\
    grid_shape (visited s) /\
    is_side (turn_to_play s) /\
    turn_to_play s <> Piece.EMPTY.
Proof.
  intros p0 str s H. destruct (set_from_board_str_valid _ _ _ H) as [Hg Ht Hv].
  split; [exact Hg|]. split; [exact Hv|]. split; [exact Ht|].
  destruct Ht as [E | E]; rewrite E; discriminate.
Qed.

Lemma decoded_state_is_valid_witness :
  let s := mkState (replicate BOARD_ROWS (replicate BOARD_COLS Piece.EMPTY))
             Piece.BLACK Direction.N
             (replicate BOARD_ROWS (replicate BOARD_COLS false)) 7 in
  grid_shape (board_state s) /\
  grid_shape (visited s) /\
  is_side (turn_to_play s) /\
  turn_to_play s <> Piece.EMPTY.
Proof.
  apply (decoded_state_is_valid Piece.WHITE (py "9/9/9/9/9 B N - 7")).
  vm_compute. reflexivity.
Defined.

(** X13: the decoder never rejects a turn field: with the other four fields
    the same, any turn field other than W gives what the field B gives, the
    same state or the same exception. *)
Theorem any_turn_field_but_W_reads_as_B :
  forall (Piece0 : Piece.t) (b t d v h : str),
    Forall is_word [b; t; d; v; h] ->
    t <> py "W" ->
    set_from_board_str Piece0 (join (py " ") [b; t; d; v; h])
    = set_from_board_str Piece0 (join (py " ") [b; py "B"; d; v; h]).
Proof.
  intros p0 b t d v h Hw Ht.
  assert (Hw' : Forall is_word [b; py "B"; d; v; h]).
  { apply Forall_cons_1 in Hw as [Hb Hw]. apply Forall_cons_1 in Hw as [_ Hw].
    constructor; [exact Hb|]. constructor; [|exact Hw].
    split; [discriminate | by repeat constructor]. }
  unfold set_from_board_str. rewrite !py_split_join by done.
  rewrite (bool_decide_eq_false_2 (t = py "W")) by done.
  by rewrite (bool_decide_eq_false_2 (py "B" = py "W")) by discriminate.
Qed.

Lemma any_turn_field_but_W_reads_as_B_witness :
  set_from_board_str Piece.EMPTY
    (join (py " ") [py "9/9/9/9/9"; py "white"; py "-"; py "-"; py "0"])
  = set_from_board_str Piece.EMPTY
      (join (py " ") [py "9/9/9/9/9"; py "B"; py "-"; py "-"; py "0"]).
Proof.
  apply (any_turn_field_but_W_reads_as_B Piece.EMPTY).
  - repeat (constructor; [split; [discriminate | by repeat constructor]|]).
    constructor.
  - discriminate.
Defined.

(** X14: encoding normalises: whatever string a state was decoded from,
    the notation of the decoded state decodes to that same state. *)
Theorem encode_after_decode_is_stable :
  forall (EMPTY_str : str) (Piece0 : Piece.t) (board_string : str)
         (s : FanoronaState),
    set_from_board_str Piece0 board_string = Ok s ->
    exists enc : str,
      value (get_board_str EMPTY_str) s = Ok enc /\
      set_from_board_str Piece0 enc = Ok s.
Proof.
  intros e p0 str s H.
  destruct (get_board_str_decodes e p0 s (set_from_board_str_valid _ _ _ H))
    as (enc & Hrun & Hdec).
  exists enc. unfold value. by rewrite Hrun.
Qed.

Lemma encode_after_decode_is_stable_witness :
  exists enc : str,
    value (get_board_str (py "E"))
      (mkState (replicate BOARD_ROWS (replicate BOARD_COLS Piece.EMPTY))
         Piece.BLACK Direction.X
         (replicate BOARD_ROWS (replicate BOARD_COLS false)) 7) = Ok enc /\
    set_from_board_str Piece.WHITE enc
    = Ok (mkState (replicate BOARD_ROWS (replicate BOARD_COLS Piece.EMPTY))
            Piece.BLACK Direction.X
            (replicate BOARD_ROWS (replicate BOARD_COLS false)) 7).
Proof.
  apply (encode_after_decode_is_stable (py "E") Piece.WHITE
           (py "  45/18/9/333/9   b   X - +0_7 ")).
  vm_compute. reflexivity.
Defined.

(** ** White space around and between the fields *)

Lemma words_from_words s :
  forall cur,
    Forall (fun c => is_space c = false) cur ->
    Forall is_word (words_from s cur).
Proof.
  induction s as [|c s IH]; intros cur Hcur.
  - simpl. destruct cur; [constructor|].
    constructor; [by split | constructor].
  - simpl. destruct (is_space c) eqn:Ec.
    + destruct cur as [|x cur]; [by apply IH|].
      constructor; [by split | by apply IH].
    + apply IH. apply Forall_app. split; [done | by constructor].
Qed.

Lemma words_from_leading pre s :
  Forall (fun c => is_space c = true) pre ->
  words_from (pre ++ s) [] = words_from s [].
Proof. induction 1 as [|c pre Hc _ IH]; [done|]. simpl. by rewrite Hc. Qed.

Lemma words_from_trailing s post :
  Forall (fun c => is_space c = true) post ->
  forall cur, words_from (s ++ post) cur = words_from s cur.
Proof.
  intros Hpost.
  assert (Hend : forall l, Forall (fun c => is_space c = true) l ->
                      words_from l [] = []).
  { induction 1 as [|c l Hc _ IH]; [done|]. simpl. by rewrite Hc. }
  induction s as [|c s IH]; intros cur.
  - simpl. destruct Hpost as [|x post Hx Hpost]; [done|].
    simpl. rewrite Hx, (Hend post Hpost). by destruct cur.
  - simpl. destruct (is_space c); [|apply IH].
    destruct cur; by rewrite IH.
Qed.

(** X15: the decoder sees only the fields [split()] gives: white space
    before the first field and after the last is ignored, and so is any
    amount of white space between fields, since the fields joined by single
    spaces decode alike. *)
Theorem decoding_ignores_white_space :
  forall (Piece0 : Piece.t) (board_string pre post : str),
    Forall (fun c => is_space c = true) pre ->
    Forall (fun c => is_space c = true) post ->
    set_from_board_str Piece0 (pre ++ board_string ++ post)
    = set_from_board_str Piece0 board_string /\
    set_from_board_str Piece0 (join (py " ") (py_split board_string))
    = set_from_board_str Piece0 board_string.
Proof.
  intros p0 s pre post Hpre Hpost. unfold set_from_board_str. split.
  - unfold py_split.
    by rewrite (words_from_leading pre _ Hpre), (words_from_trailing s post Hpost).
  - rewrite py_split_join; [done|]. by apply words_from_words.
Qed.

Lemma decoding_ignores_white_space_witness :
  let s := py "9/9/9/9/9   W -	-  0" in
  set_from_board_str Piece.EMPTY (py "  " ++ s ++ py " ")
  = set_from_board_str Piece.EMPTY s /\
  set_from_board_str Piece.EMPTY (join (py " ") (py_split s))
  = set_from_board_str Piece.EMPTY s.
Proof.
  apply (decoding_ignores_white_space Piece.EMPTY); by repeat constructor.
Defined.

(** ** The direction field and the capturing sequence *)

Lemma of_name_name d dir : Direction.of_name d = Ok dir -> Direction.name dir = d.
Proof.
  unfold Direction.of_name. intros H.
  destruct (find _ Direction.members) as [x|] eqn:E; [|discriminate].
  injection H as ->. apply find_some in E as [_ E].
  by apply bool_decide_eq_true in E.
Qed.

(** X16: a state decoded from a string whose direction field is [-] or the
    member name X is in no capturing sequence; decoded from any other
    direction field, it is in one. *)
Theorem decoded_in_capturing_seq :
  forall (Piece0 : Piece.t) (board_string : str) (s : FanoronaState),
    set_from_board_str Piece0 board_string = Ok s ->
    exists (b t d v h : str) (c : bool),
      py_split board_string = [b; t; d; v; h] /\
      value in_capturing_seq s = Ok c /\
      (c = false <-> d = py "-" \/ d = py "X").
Proof.
  intros p0 str s H.
  destruct (set_from_board_str_inv _ _ _ H)
    as (b & t & d & v & h & Hsplit & _ & _ & Hd & _).
  exists b, t, d, v, h, (negb (Direction.eqb (last_dir s) Direction.X)).
  split; [done|]. split; [reflexivity|].
  rewrite negb_false_iff.
  destruct (bool_decide (d = py "-")) eqn:Edash.
  - apply bool_decide_eq_true in Edash. injection Hd as <-.
    split; [by left | done].
  - apply bool_decide_eq_false in Edash. apply of_name_name in Hd. split.
    + intros Hx. right. rewrite <- Hd. by destruct (last_dir s).
    + intros [Hm | Hx]; [done|]. rewrite <- Hd in Hx.
      by destruct (last_dir s).
Qed.

Lemma decoded_in_capturing_seq_witness :
  exists (b t d v h : str) (c : bool),
    py_split (py "9/9/9/9/9 W X - 0") = [b; t; d; v; h] /\
    value in_capturing_seq
      (mkState (replicate BOARD_ROWS (replicate BOARD_COLS Piece.EMPTY))
         Piece.WHITE Direction.X
         (replicate BOARD_ROWS (replicate BOARD_COLS false)) 0) = Ok c /\
    (c = false <-> d = py "-" \/ d = py "X").
Proof.
  apply (decoded_in_capturing_seq Piece.EMPTY (py "9/9/9/9/9 W X - 0")).
  vm_compute. reflexivity.
Defined.

(** ** The visited field, label by label *)

Lemma cell_at_shape {A} (G : list (list A)) (r c : nat) :
  grid_shape G -> (r < BOARD_ROWS)%nat -> (c < BOARD_COLS)%nat ->
  exists x, cell_at G r c = Some x.
Proof.
  intros HG Hr Hc. pose proof HG as [Hlen _]. unfold cell_at.
  destruct (lookup_lt_is_Some_2 G r ltac:(lia)) as [row Hrow]. rewrite Hrow.
  apply lookup_lt_is_Some_2. by rewrite (grid_shape_row G r row HG Hrow).
Qed.

(** A store inside the grid changes that cell and no other. *)
Lemma grid_set_cell {A} (G : list (list A)) (r c : nat) v :
  grid_shape G -> (r < BOARD_ROWS)%nat -> (c < BOARD_COLS)%nat ->
  exists G',
    grid_set G (Z.of_nat r) (Z.of_nat c) v = Ok G' /\
    grid_shape G' /\
    forall r' c',
      cell_at G' r' c'
      = if decide (r' = r /\ c' = c) then Some v else cell_at G r' c'.
Proof.
  intros HG Hr Hc. pose proof HG as [Hlen _].
  destruct (lookup_lt_is_Some_2 G r ltac:(lia)) as [row Hrow].
  pose proof (grid_shape_row G r row HG Hrow) as Hrl.
  assert (Hset : grid_set G (Z.of_nat r) (Z.of_nat c) v
                 = Ok (<[r := <[c := v]> row]> G)).
  { unfold grid_set. rewrite norm_index_nat.
    destruct (decide (r < length G)%nat); [|lia]. cbn [rbind]. rewrite Hrow.
    rewrite norm_index_nat. destruct (decide (c < length row)%nat); [done | lia]. }
  exists (<[r := <[c := v]> row]> G). split; [exact Hset|]. split.
  - eapply same_shape_grid_shape; [exact HG | by eapply grid_set_shape].
  - intros r' c'. unfold cell_at.
    destruct (decide (r' = r)) as [-> | Hne].
    + rewrite list_lookup_insert_eq by lia. rewrite Hrow.
      destruct (decide (c' = c)) as [-> | Hnc].
      * rewrite list_lookup_insert_eq by lia.
        by rewrite decide_True.
      * rewrite list_lookup_insert_ne by done.
        rewrite decide_False; [done | by intros [_ ?]].
    + rewrite list_lookup_insert_ne by done.
      rewrite decide_False; [done | by intros [? _]].
Qed.

Lemma of_human_in_grid l p :
  Position.of_human l = Ok p ->
  exists r c : nat,
    p = Position.mk (Z.of_nat r) (Z.of_nat c) /\
    (r < BOARD_ROWS)%nat /\ (c < BOARD_COLS)%nat.
Proof.
  unfold Position.of_human. destruct l as [|a [|b [|? ?]]]; try discriminate.
  unfold Position.of_coords. cbn [fst snd].
  destruct (Position.in_grid _) eqn:Hin; [|discriminate].
  intros [= <-]. unfold Position.in_grid in Hin.
  cbn [Position.row Position.col] in Hin.
  apply andb_true_iff in Hin as [Hin H4]. apply andb_true_iff in Hin as [Hin H3].
  apply andb_true_iff in Hin as [H1 H2].
  apply Z.leb_le in H1, H3. apply Z.ltb_lt in H2, H4.
  exists (Z.to_nat (Z.of_nat (nat_of_ascii b) - 49)),
    (Z.to_nat (Z.of_nat (nat_of_ascii a) - 65)).
  rewrite !Z2Nat.id by lia. split; [done|]. lia.
Qed.

(** Marking valid labels sets exactly their cells. *)
Lemma mark_visited_cells labels ps :
  Forall2 (fun l p => Position.of_human l = Ok p) labels ps ->
  forall V,
    grid_shape V ->
    exists V',
      mark_visited V labels = Ok V' /\
      grid_shape V' /\
      forall r c b,
        cell_at V' r c = Some b ->
        (b = true <->
         cell_at V r c = Some true \/
         In (Position.mk (Z.of_nat r) (Z.of_nat c)) ps).
Proof.
  induction 1 as [|l p labels ps Hl _ IH]; intros V HV.
  - exists V. split; [done|]. split; [done|]. intros r c b Hb. rewrite Hb.
    split; [intros ->; by left | intros [[= ->] | []]; done].
  - destruct (of_human_in_grid l p Hl) as (r0 & c0 & -> & Hr0 & Hc0).
    destruct (grid_set_cell V r0 c0 true HV Hr0 Hc0) as (V1 & Hset & HV1 & Hcell).
    destruct (IH V1 HV1) as (V' & Hmark & HV' & Hcells).
    exists V'. split; [|split; [exact HV'|]].
    + cbn [mark_visited]. rewrite Hl. cbn [rbind Position.to_coords].
      cbn [Position.row Position.col]. rewrite Hset. exact Hmark.
    + intros r c b Hb. rewrite (Hcells r c b Hb), Hcell. simpl In.
      destruct (decide (r = r0 /\ c = c0)) as [[-> ->] | Hne].
      * split; [intros _; right; by left | intros _; by left].
      * split.
        -- intros [Hv | Hin]; [by left | right; by right].
        -- intros [Hv | [Heq | Hin]]; [by left | | by right].
           exfalso. apply Hne. injection Heq as Hr Hc.
           split; by apply Nat2Z.inj.
Qed.

(** Grids of the grid's shape with the same cells are the same grid. *)
Lemma grid_ext {A} (G1 G2 : list (list A)) :
  grid_shape G1 -> grid_shape G2 ->
  (forall r c, (r < BOARD_ROWS)%nat -> (c < BOARD_COLS)%nat ->
               cell_at G1 r c = cell_at G2 r c) ->
  G1 = G2.
Proof.
  intros H1 H2 Hcells. pose proof H1 as [Hl1 _]. pose proof H2 as [Hl2 _].
  apply list_eq. intros r.
  destruct (decide (r < BOARD_ROWS)%nat) as [Hr | Hr].
  - destruct (lookup_lt_is_Some_2 G1 r ltac:(lia)) as [row1 Hrow1].
    destruct (lookup_lt_is_Some_2 G2 r ltac:(lia)) as [row2 Hrow2].
    rewrite Hrow1, Hrow2. f_equal. apply list_eq. intros c.
    pose proof (grid_shape_row G1 r row1 H1 Hrow1) as Hrl1.
    pose proof (grid_shape_row G2 r row2 H2 Hrow2) as Hrl2.
    destruct (decide (c < BOARD_COLS)%nat) as [Hc | Hc].
    + specialize (Hcells r c Hr Hc). unfold cell_at in Hcells.
      by rewrite Hrow1, Hrow2 in Hcells.
    + by rewrite !lookup_ge_None_2 by lia.
  - by rewrite !lookup_ge_None_2 by lia.
Qed.

(** X17: when every label of a visited field other than [-] is a position,
    the decoded visited grid has the grid's shape and is true exactly at the
    listed positions. *)
Theorem decoded_visited_cells :
  forall (visited_pos_str : str) (ps : list Position.t),
    visited_pos_str <> py "-" ->
    Forall2 (fun l p => Position.of_human l = Ok p)
      (split_on "," visited_pos_str) ps ->
    exists V : list (list bool),
      process_visited_pos_str visited_pos_str = Ok V /\
      grid_shape V /\
      forall r c : nat,
        (r < BOARD_ROWS)%nat -> (c < BOARD_COLS)%nat ->
        exists b : bool,
          cell_at V r c = Some b /\
          (b = true <-> In (Position.mk (Z.of_nat r) (Z.of_nat c)) ps).
Proof.
  intros v ps Hv Hls.
  destruct (mark_visited_cells _ _ Hls _ (fresh_grid_shape false))
    as (V & Hmark & HV & Hcells).
  exists V. split; [|split; [exact HV|]].
  - unfold process_visited_pos_str. by rewrite bool_decide_eq_false_2.
  - intros r c Hr Hc. destruct (cell_at_shape V r c HV Hr Hc) as [b Hb].
    exists b. split; [exact Hb|]. rewrite (Hcells r c b Hb).
    destruct (cell_at_shape (replicate BOARD_ROWS (replicate BOARD_COLS false))
                r c (fresh_grid_shape false) Hr Hc) as [x Hx].
    assert (x = false) as ->.
    { unfold cell_at in Hx.
      destruct (replicate BOARD_ROWS _ !! r) as [row|] eqn:Er; [|discriminate].
      apply lookup_replicate in Er as [-> _].
      by apply lookup_replicate in Hx as [-> _]. }
    rewrite Hx. split; [intros [[=] | Hin]; done | by right].
Qed.

Lemma decoded_visited_cells_witness :
  exists V : list (list bool),
    process_visited_pos_str (py "C2,A1,C2") = Ok V /\
    grid_shape V /\
    forall r c : nat,
      (r < BOARD_ROWS)%nat -> (c < BOARD_COLS)%nat ->
      exists b : bool,
        cell_at V r c = Some b /\
        (b = true <->
         In (Position.mk (Z.of_nat r) (Z.of_nat c))
           [Position.mk 1 2; Position.mk 0 0; Position.mk 1 2]).
Proof.
  apply (decoded_visited_cells (py "C2,A1,C2")
           [Position.mk 1 2; Position.mk 0 0; Position.mk 1 2]).
  - discriminate.
  - vm_compute split_on. repeat constructor.
Defined.

(** X18: the order of the labels of the visited field and their repetition
    do not matter: two visited fields whose labels name the same positions
    decode to the same visited grid. *)
Theorem decoded_visited_is_a_set :
  forall (v1 v2 : str) (ps1 ps2 : list Position.t),
    v1 <> py "-" ->
    v2 <> py "-" ->
    Forall2 (fun l p => Position.of_human l = Ok p) (split_on "," v1) ps1 ->
    Forall2 (fun l p => Position.of_human l = Ok p) (split_on "," v2) ps2 ->
    (forall p, In p ps1 <-> In p ps2) ->
    process_visited_pos_str v1 = process_visited_pos_str v2.
Proof.
  intros v1 v2 ps1 ps2 Hv1 Hv2 Hl1 Hl2 Hsame.
  destruct (mark_visited_cells _ _ Hl1 _ (fresh_grid_shape false))
    as (V1 & Hm1 & HV1 & Hc1).
  destruct (mark_visited_cells _ _ Hl2 _ (fresh_grid_shape false))
    as (V2 & Hm2 & HV2 & Hc2).
  unfold process_visited_pos_str.
  rewrite !bool_decide_eq_false_2 by done. rewrite Hm1, Hm2. f_equal.
  apply grid_ext; [done | done |]. intros r c Hr Hc.
  destruct (cell_at_shape V1 r c HV1 Hr Hc) as [b1 Hb1].
  destruct (cell_at_shape V2 r c HV2 Hr Hc) as [b2 Hb2].
  rewrite Hb1, Hb2. f_equal.
  pose proof (Hc1 r c b1 Hb1) as E1. pose proof (Hc2 r c b2 Hb2) as E2.
  assert (E : b1 = true <-> b2 = true).
  { split; intros Hb.
    - apply E2. apply E1 in Hb as [Hz | Hin]; [by left | right; by apply Hsame].
    - apply E1. apply E2 in Hb as [Hz | Hin]; [by left | right; by apply Hsame]. }
  destruct b1, b2; try done; [symmetry; by apply E | by apply E].
Qed.

Lemma decoded_visited_is_a_set_witness :
  process_visited_pos_str (py "C2,A1,C2") = process_visited_pos_str (py "A1,C2").
Proof.
  apply (decoded_visited_is_a_set (py "C2,A1,C2") (py "A1,C2")
           [Position.mk 1 2; Position.mk 0 0; Position.mk 1 2]
           [Position.mk 0 0; Position.mk 1 2]).
  - discriminate.
  - discriminate.
  - vm_compute split_on. repeat constructor.
  - vm_compute split_on. repeat constructor.
  - intros p. simpl. tauto.
Defined.

(** ** What the board decoder reads *)

Lemma expand_row_length s : length (expand_row s) = row_width s.
Proof.
  induction s as [|c s IH]; [done|]. cbn [expand_row row_width].
  rewrite length_app, IH. f_equal. unfold cell_width.
  destruct (ascii_eqb c "W"); [done|]. destruct (ascii_eqb c "B"); [done|].
  simpl orb. cbv iota. apply length_replicate.
Qed.

Lemma process_row_expand s :
  forall G r done todo,
    Forall row_char s ->
    G !! r = Some (done ++ todo) ->
    (row_width s <= length todo)%nat ->
    process_row G r s (length done)
    = Ok (<[r := done ++ expand_row s ++ drop (row_width s) todo]> G).
Proof.
  induction s as [|c s IH]; intros G r done todo Hs Hr Hw.
  - simpl. by rewrite list_insert_id.
  - apply Forall_cons_1 in Hs as [Hc Hs]. cbn [row_width] in Hw.
    assert (Hpiece : forall q,
      (ascii_eqb c "W" || ascii_eqb c "B") = true ->
      q = (if ascii_eqb c "W" then Piece.WHITE else Piece.BLACK) ->
      process_row G r (c :: s) (length done)
      = Ok (<[r := done ++ (q :: expand_row s)
                     ++ drop (1 + row_width s) todo]> G)).
    { intros q Hq ->. rewrite process_row_cons, Hq.
      unfold cell_width in Hw. rewrite Hq in Hw.
      destruct todo as [|x todo]; [simpl in Hw; lia|]. simpl in Hw.
      rewrite (grid_set_next G r done x todo _ Hr). cbn [rbind].
      set (q := if ascii_eqb c "W" then Piece.WHITE else Piece.BLACK).
      replace (Datatypes.S (length done)) with (length (done ++ [q]))
        by (rewrite length_app; simpl; lia).
      rewrite (IH _ r (done ++ [q]) todo Hs).
      - rewrite list_insert_insert_eq. f_equal. f_equal.
        by rewrite <- app_assoc.
      - rewrite list_lookup_insert_eq by (by eapply lookup_lt_Some).
        by rewrite <- app_assoc.
      - lia. }
    destruct Hc as [-> | [-> | (d & Hd & ->)]].
    + rewrite (Hpiece Piece.WHITE) by reflexivity. reflexivity.
    + rewrite (Hpiece Piece.BLACK) by reflexivity. reflexivity.
    + clear Hpiece.
      pose proof (digit_val_char d ltac:(lia)) as Hv.
      destruct (digit_val_class _ _ Hv) as (_ & _ & _ & _ & _ & _ & _ & HW & HB).
      apply ascii_eqb_neq in HW, HB.
      assert (Hcw : cell_width (digit_char d) = Z.to_nat d)
        by (unfold cell_width; by rewrite HW, HB, Hv).
      rewrite Hcw in Hw.
      rewrite process_row_cons, HW, HB, Hv. cbn [orb].
      rewrite (fill_empty_run (Z.to_nat d) G r done todo _ Hr) by lia.
      cbn [rbind fst snd].
      set (done1 := done ++ replicate (Z.to_nat d) Piece.EMPTY).
      replace (Datatypes.S _) with (length done1).
      2:{ unfold done1. rewrite length_app, length_replicate.
          destruct (Z.to_nat d) eqn:E; lia. }
      rewrite (IH _ r done1 (drop (Z.to_nat d) todo) Hs).
      * rewrite list_insert_insert_eq. f_equal. f_equal.
        cbn [expand_row row_width]. rewrite HW, HB, Hcw.
        unfold done1. rewrite drop_drop. by rewrite <- !app_assoc.
      * rewrite list_lookup_insert_eq by (by eapply lookup_lt_Some).
        unfold done1. by rewrite <- app_assoc.
      * rewrite length_drop. lia.
Qed.

Lemma process_rows_expand p0 rows :
  forall (doneRows : list (list Piece.t)) (k : nat),
    (length rows <= k)%nat ->
    Forall (fun s => Forall row_char s /\ (row_width s <= BOARD_COLS)%nat) rows ->
    process_rows (doneRows ++ replicate k (replicate BOARD_COLS p0))
      (length doneRows) rows
    = Ok (doneRows ++ map (fun s => pad_row p0 (expand_row s)) rows
            ++ replicate (k - length rows) (replicate BOARD_COLS p0)).
Proof.
  induction rows as [|s rows IH]; intros doneRows k Hk Hrows.
  - simpl. by rewrite Nat.sub_0_r.
  - apply Forall_cons_1 in Hrows as [[Hs Hw] Hrows].
    destruct k as [|k]; [simpl in Hk; lia|]. simpl in Hk.
    cbn [process_rows replicate].
    rewrite (process_row_expand s _ (length doneRows) [] (replicate BOARD_COLS p0) Hs);
      [| by rewrite lookup_at_length | by rewrite length_replicate].
    cbn [rbind app]. rewrite insert_at_length.
    assert (Hpad : expand_row s ++ drop (row_width s) (replicate BOARD_COLS p0)
                   = pad_row p0 (expand_row s)).
    { unfold pad_row. by rewrite drop_replicate, expand_row_length. }
    rewrite Hpad.
    replace (Datatypes.S (length doneRows))
      with (length (doneRows ++ [pad_row p0 (expand_row s)]))
      by (rewrite length_app; simpl; lia).
    transitivity
      (process_rows
         ((doneRows ++ [pad_row p0 (expand_row s)])
            ++ replicate k (replicate BOARD_COLS p0))
         (length (doneRows ++ [pad_row p0 (expand_row s)])) rows);
      [by rewrite <- app_assoc|].
    rewrite (IH _ k) by (done || lia).
    cbn [map length]. rewrite <- app_assoc. simpl. reflexivity.
Qed.

(** X19: a board string of at most ROWS rows, each written with W, B and the
    digits 1 to 9 and taking at most COLS columns, always decodes: each
    character is read on its own (W and B a piece, a digit that many EMPTY
    cells), and the cells and rows the string does not reach keep the value
    of a fresh grid.  So a multi-digit string such as 45 is two runs, and a
    short row or a missing row is no error. *)
Theorem board_decoder_reads_character_by_character :
  forall (Piece0 : Piece.t) (rows : list str),
    rows <> [] ->
    (length rows <= BOARD_ROWS)%nat ->
    Forall (fun s => Forall row_char s /\ (row_width s <= BOARD_COLS)%nat) rows ->
    process_board_state_str Piece0 (join (py "/") rows)
    = Ok (pad_board Piece0 (map expand_row rows)).
Proof.
  intros p0 rows Hne Hlen Hrows. unfold process_board_state_str.
  change (py "/") with ["/"%char]. rewrite split_on_join; [|done|].
  - pose proof (process_rows_expand p0 rows [] BOARD_ROWS Hlen Hrows) as H.
    cbn [app length] in H. rewrite H.
    unfold pad_board. by rewrite map_map, length_map.
  - eapply Forall_impl; [exact Hrows|]. intros s [Hs _].
    eapply Forall_impl; [exact Hs|]. intros c Hc. by apply row_char_class.
Qed.

Lemma board_decoder_reads_character_by_character_witness :
  process_board_state_str Piece.BLACK (join (py "/") [py "45"; py "W3B"; []])
  = Ok (pad_board Piece.BLACK (map expand_row [py "45"; py "W3B"; []])).
Proof.
  apply (board_decoder_reads_character_by_character Piece.BLACK
           [py "45"; py "W3B"; []]).
  - discriminate.
  - vm_compute. lia.
  - assert (Hd : forall d, 1 <= d <= 9 -> row_char (digit_char d))
      by (intros d Hd; right; right; by exists d).
    constructor; [split; [|vm_compute; lia]|].
    { change (py "45") with [digit_char 4; digit_char 5].
      constructor; [apply Hd; lia|]. constructor; [apply Hd; lia|].
      constructor. }
    constructor; [split; [|vm_compute; lia]|].
    { change (py "W3B") with ["W"%char; digit_char 3; "B"%char].
      constructor; [by left|]. constructor; [apply Hd; lia|].
      constructor; [right; by left|]. constructor. }
    constructor; [split; [constructor | vm_compute; lia]|]. constructor.
Defined.

Lemma split_from_snoc_sep sep s :
  forall cur, split_from sep (s ++ [sep]) cur = split_from sep s cur ++ [[]].
Proof.
  induction s as [|c s IH]; intros cur.
  - simpl. by rewrite (proj2 (ascii_eqb_eq sep sep) eq_refl).
  - simpl. destruct (ascii_eqb c sep); by rewrite IH.
Qed.

Lemma process_rows_snoc_empty rows :
  forall G r, process_rows G r (rows ++ [[]]) = process_rows G r rows.
Proof.
  induction rows as [|x rows IH]; intros G r; [done|].
  cbn [app process_rows]. destruct (process_row G r x 0); [|done].
  cbn [rbind]. apply IH.
Qed.

(** X20: a [/] at the end of the board string makes no difference to the
    board decoder: the empty row after it stores nothing, whatever its row
    number, so it is neither an error nor a change. *)
Theorem board_decoder_ignores_trailing_slash :
  forall (Piece0 : Piece.t) (board_state_str : str),
    process_board_state_str Piece0 (board_state_str ++ py "/")
    = process_board_state_str Piece0 board_state_str.
Proof.
  intros p0 b. unfold process_board_state_str, split_on.
  change (py "/") with ["/"%char].
  by rewrite split_from_snoc_sep, process_rows_snoc_empty.
Qed.

(** ** Malformed notation, exception by exception *)

Lemma norm_index_exn len i e : norm_index len i = Raise e -> e = IndexError.
Proof.
  unfold norm_index. destruct (_ && _); [discriminate|]. by intros [= <-].
Qed.

Lemma grid_set_exn {A} (G : list (list A)) r c v e :
  grid_set G r c v = Raise e -> e = IndexError.
Proof.
  unfold grid_set.
  destruct (norm_index (length G) r) as [i|] eqn:Ei;
    [|intros [= <-]; by eapply norm_index_exn].
  cbn [rbind]. destruct (G !! i) as [row|]; [|by intros [= <-]].
  destruct (norm_index (length row) c) as [j|] eqn:Ej;
    [discriminate | intros [= <-]; by eapply norm_index_exn].
Qed.

Lemma int_digits_exn s :
  forall acc flag e, int_digits s acc flag = Raise e -> e = ValueError.
Proof.
  induction s as [|c s IH]; intros acc flag e; cbn [int_digits].
  - destruct flag; [discriminate | by intros [= <-]].
  - destruct (digit_val c); [apply IH|].
    destruct (ascii_eqb c "_" && flag); [apply IH | by intros [= <-]].
Qed.

Lemma py_int_exn s e : py_int s = Raise e -> e = ValueError.
Proof.
  unfold py_int. destruct s as [|c r]; [by intros [= <-]|].
  destruct (ascii_eqb c "-").
  - destruct (int_digits r 0 false) eqn:E; [discriminate|].
    intros [= <-]. by eapply int_digits_exn.
  - destruct (ascii_eqb c "+"); apply int_digits_exn.
Qed.

Lemma fill_empty_exn cols :
  forall G r cb e, fill_empty G r cols cb = Raise e -> e = IndexError.
Proof.
  induction cols as [|c cols IH]; intros G r cb e; cbn [fill_empty];
    [discriminate|].
  destruct (grid_set G _ _ _) as [G1|] eqn:E1; cbn [rbind].
  - apply IH.
  - intros [= <-]. by eapply grid_set_exn.
Qed.

(** The row loop raises IndexError, or ValueError at a character that is no
    token. *)
Lemma process_row_exn s :
  forall G r c e,
    process_row G r s c = Raise e ->
    e = IndexError \/ (e = ValueError /\ forallb is_token s = false).
Proof.
  induction s as [|cell s IH]; intros G r c e; [discriminate|].
  rewrite process_row_cons. cbn [forallb].
  destruct (ascii_eqb cell "W" || ascii_eqb cell "B") eqn:EWB.
  - destruct (grid_set G _ _ _) as [G1|] eqn:E1; cbn [rbind].
    + intros H. destruct (IH _ _ _ _ H) as [-> | [-> Ht]]; [by left|].
      right. by rewrite Ht, andb_false_r.
    + intros [= <-]. left. by eapply grid_set_exn.
  - destruct (digit_val cell) as [d|] eqn:Ed.
    + destruct (fill_empty G r _ c) as [[G1 cb]|] eqn:E1; cbn [rbind].
      * intros H. destruct (IH _ _ _ _ H) as [-> | [-> Ht]]; [by left|].
        right. by rewrite Ht, andb_false_r.
      * intros [= <-]. left. by eapply fill_empty_exn.
    + intros [= <-]. right. split; [done|].
      assert (is_token cell = false) as ->
        by (unfold is_token; by rewrite EWB, Ed).
      done.
Qed.

Lemma process_rows_exn rows :
  forall G r e,
    process_rows G r rows = Raise e ->
    e = IndexError \/
    (e = ValueError /\ forallb (forallb is_token) rows = false).
Proof.
  induction rows as [|x rows IH]; intros G r e; [discriminate|].
  cbn [process_rows forallb].
  destruct (process_row G r x 0) as [G1|] eqn:E1; cbn [rbind].
  - intros H. destruct (IH _ _ _ H) as [-> | [-> Ht]]; [by left|].
    right. by rewrite Ht, andb_false_r.
  - intros [= <-]. destruct (process_row_exn _ _ _ _ _ E1) as [-> | [-> Ht]];
      [by left | right; by rewrite Ht].
Qed.

Lemma of_human_exn l e : Position.of_human l = Raise e -> e = InvalidPosition.
Proof.
  unfold Position.of_human, Position.of_coords.
  destruct l as [|a [|b [|? ?]]]; try (by intros [= <-]).
  destruct (Position.in_grid _); [discriminate | by intros [= <-]].
Qed.

Lemma of_name_exn d e : Direction.of_name d = Raise e -> e = KeyError.
Proof.
  unfold Direction.of_name. destruct (find _ _); [discriminate | by intros [= <-]].
Qed.

Lemma mark_visited_exn labels :
  forall V e,
    mark_visited V labels = Raise e -> e = InvalidPosition \/ e = IndexError.
Proof.
  induction labels as [|l labels IH]; intros V e; [discriminate|].
  cbn [mark_visited].
  destruct (Position.of_human l) as [p|] eqn:El; cbn [rbind];
    [|intros [= <-]; left; by eapply of_human_exn].
  destruct (Position.to_coords p) as [row col].
  destruct (grid_set V row col true) as [V1|] eqn:E1; cbn [rbind];
    [apply IH | intros [= <-]; right; by eapply grid_set_exn].
Qed.

(** Whatever the decoder raises is one of four exceptions. *)
Lemma set_from_board_str_exn p0 board_string e :
  set_from_board_str p0 board_string = Raise e -> decoder_exn e.
Proof.
  unfold set_from_board_str, decoder_exn.
  destruct (py_split board_string) as [|b [|t [|d [|v [|h [|? ?]]]]]];
    try (intros [= <-]; by left).
  destruct (process_board_state_str p0 b) as [g|] eqn:Eb; cbn [rbind].
  2:{ intros [= <-]. unfold process_board_state_str in Eb.
      destruct (process_rows_exn _ _ _ _ Eb) as [-> | [-> _]]; auto. }
  destruct (if bool_decide (d = py "-") then _ else _) as [dir|] eqn:Ed;
    cbn [rbind].
  2:{ intros [= <-]. destruct (bool_decide (d = py "-")); [discriminate|].
      right. left. by eapply of_name_exn. }
  destruct (process_visited_pos_str v) as [vis|] eqn:Ev; cbn [rbind].
  2:{ intros [= <-]. unfold process_visited_pos_str in Ev.
      destruct (bool_decide (v = py "-")); [discriminate|].
      destruct (mark_visited_exn _ _ _ Ev) as [-> | ->]; auto. }
  destruct (py_int h) as [hm|] eqn:Eh; cbn [rbind]; [discriminate|].
  intros [= <-]. left. by eapply py_int_exn.
Qed.

(** A row whose stores reach beyond the last column cannot be read. *)
Lemma process_row_store_overrun r s :
  forall c G,
    (row_len G r <= BOARD_COLS)%nat ->
    row_overruns s c = true ->
    fails (process_row G r s c).
Proof.
  induction s as [|cell s IH]; intros c G Hlen Hover; [discriminate|].
  rewrite process_row_cons. cbn [row_overruns] in Hover.
  destruct (ascii_eqb cell "W" || ascii_eqb cell "B").
  - pose proof (grid_set_nat G r c
      (if ascii_eqb cell "W" then Piece.WHITE else Piece.BLACK)) as Hset.
    destruct (grid_set _ _ _ _) as [G1|e]; [|apply fails_raise].
    destruct Hset as [Hc Hrl]. cbn [rbind].
    apply orb_true_iff in Hover as [Hc' | Hrec].
    + apply Nat.leb_le in Hc'. lia.
    + apply IH; [by rewrite Hrl | done].
  - destruct (digit_val cell) as [d|]; [|discriminate].
    pose proof (fill_empty_nat (Z.to_nat d) G r c c) as Hfill.
    destruct (fill_empty _ _ _ _) as [[G1 cb]|e]; [|apply fails_raise].
    destruct Hfill as (Hn & Hrl & Hcb). cbn [rbind fst snd].
    destruct (Z.to_nat d) as [|n] eqn:En.
    + subst cb. apply IH; [by rewrite Hrl | done].
    + apply orb_true_iff in Hover as [Hc' | Hrec].
      * apply Nat.ltb_lt in Hc'. lia.
      * subst cb. replace (Datatypes.S (c + Datatypes.S n - 1))
          with (c + Datatypes.S n)%nat by lia.
        apply IH; [by rewrite Hrl | done].
Qed.

Lemma process_rows_store_overrun rows row :
  forall r G,
    (forall i, row_len G i <= BOARD_COLS)%nat ->
    In row rows ->
    row_overruns row 0 = true ->
    fails (process_rows G r rows).
Proof.
  induction rows as [|x rows IH]; intros r G Hlen Hin Hw; [done|].
  cbn [process_rows].
  destruct (process_row G r x 0) as [G1|e] eqn:Ex; [|apply fails_raise].
  cbn [rbind]. destruct Hin as [-> | Hin].
  - exfalso. apply (fails_not_ok G1). rewrite <- Ex.
    by apply process_row_store_overrun.
  - apply (IH _ _); [|done|done].
    intros i. rewrite (process_row_len _ _ _ _ _ Ex). apply Hlen.
Qed.

(** The first label that is no position raises the position's error: the
    labels before it are stored without error. *)
Lemma mark_visited_first_invalid labels l :
  forall V,
    grid_shape V ->
    In l labels -> fails (Position.of_human l) ->
    mark_visited V labels = Raise InvalidPosition.
Proof.
  induction labels as [|x labels IH]; intros V HV Hin Hbad; [done|].
  cbn [mark_visited].
  destruct (Position.of_human x) as [p|e] eqn:Ex; cbn [rbind].
  - destruct (of_human_in_grid x p Ex) as (r0 & c0 & -> & Hr0 & Hc0).
    destruct (grid_set_cell V r0 c0 true HV Hr0 Hc0) as (V1 & Hset & HV1 & _).
    cbn [Position.to_coords Position.row Position.col]. rewrite Hset.
    cbn [rbind]. destruct Hin as [-> | Hin].
    + rewrite Ex in Hbad. by apply fails_not_ok in Hbad.
    + by apply IH.
  - by rewrite (of_human_exn _ _ Ex).
Qed.

Lemma malformed_fails p0 fields board_string :
  py_split board_string = fields ->
  malformed fields ->
  fails (set_from_board_str p0 board_string).
Proof.
  intros Hsplit H. unfold set_from_board_str. rewrite Hsplit.
  destruct H as [fields Hlen | b t d v h Hd Hname | b t d v h Hint
                | b t d v h l Hv Hin Hbad | b t d v h row Hin Hw
                | b t d v h row Hin Hw].
  - destruct fields as [|? [|? [|? [|? [|? [|? ?]]]]]];
      try apply fails_raise. by simpl in Hlen.
  - destruct (process_board_state_str p0 b); [|apply fails_raise]. cbn [rbind].
    rewrite bool_decide_eq_false_2 by done.
    rewrite of_name_unknown by done. apply fails_raise.
  - destruct (process_board_state_str p0 b); [|apply fails_raise]. cbn [rbind].
    destruct (if bool_decide (d = py "-") then _ else _);
      [|apply fails_raise]. cbn [rbind].
    destruct (process_visited_pos_str v); [|apply fails_raise]. cbn [rbind].
    by apply fails_rbind.
  - destruct (process_board_state_str p0 b); [|apply fails_raise]. cbn [rbind].
    destruct (if bool_decide (d = py "-") then _ else _);
      [|apply fails_raise]. cbn [rbind].
    apply fails_rbind. unfold process_visited_pos_str.
    rewrite bool_decide_eq_false_2 by done.
    by apply (mark_visited_invalid _ l).
  - apply fails_rbind. unfold process_board_state_str.
    apply (process_rows_overrun _ row); [|done|done].
    apply fresh_grid_row_len.
  - apply fails_rbind. unfold process_board_state_str.
    apply (process_rows_store_overrun _ row); [|done|done].
    apply fresh_grid_row_len.
Qed.

(** C5, as the code has it: a malformed notation always raises, and what
    it raises is ValueError, KeyError, IndexError or the position's error,
    never an exception of the decoder's own.  The first malformed field
    decides, in the order board, direction, visited, half moves: a wrong
    number of fields raises ValueError; a board of W, B, digits and [/] with a
    row that stores beyond the last column (each character read on its own:
    W, B and 0 move the cursor by one, a digit d from 1 to 9 stores d cells)
    raises IndexError; with the board read, a direction that is neither [-]
    nor a member name raises KeyError; with board and direction read, a label
    that is no position raises InvalidPosition; with these read, a half-move
    field [int] rejects raises ValueError. *)
Theorem malformed_notation_raises :
  forall (Piece0 : Piece.t) (board_string : str),
    (malformed (py_split board_string) ->
     exists e,
       set_from_board_str Piece0 board_string = Raise e /\ decoder_exn e) /\
    (forall e,
        malformed_first Piece0 (py_split board_string) e ->
        set_from_board_str Piece0 board_string = Raise e).
Proof.
  intros p0 s. split.
  - intros H. destruct (malformed_fails p0 _ s eq_refl H) as [e He].
    exists e. split; [exact He | by eapply set_from_board_str_exn].
  - intros e H. unfold set_from_board_str.
    destruct H as [fields Hlen | b t d v h row Htok Hin Hover
                  | b t d v h g Hb Hd Hname | b t d v h g dir l Hb Hdir Hv Hin Hbad
                  | b t d v h g dir vis Hb Hdir Hvis Hint].
    + destruct fields as [|? [|? [|? [|? [|? [|? ?]]]]]]; try reflexivity.
      by simpl in Hlen.
    + assert (Hfail : fails (process_board_state_str p0 b)).
      { unfold process_board_state_str.
        apply (process_rows_store_overrun _ row); [|done|done].
        apply fresh_grid_row_len. }
      destruct Hfail as [e He]. rewrite He. cbn [rbind].
      unfold process_board_state_str in He.
      destruct (process_rows_exn _ _ _ _ He) as [-> | [_ Hno]]; [done|].
      congruence.
    + rewrite Hb. cbn [rbind]. rewrite bool_decide_eq_false_2 by done.
      by rewrite of_name_unknown.
    + rewrite Hb. cbn [rbind]. rewrite Hdir. cbn [rbind].
      unfold process_visited_pos_str. rewrite bool_decide_eq_false_2 by done.
      rewrite (mark_visited_first_invalid _ l _ (fresh_grid_shape false) Hin Hbad).
      reflexivity.
    + rewrite Hb. cbn [rbind]. rewrite Hdir. cbn [rbind]. rewrite Hvis.
      cbn [rbind]. destruct Hint as [e He]. rewrite He.
      by rewrite (py_int_exn _ _ He).
Qed.

(** Evaluates [split()] on the notation of the goal. *)
Ltac split_notation :=
  match goal with
  | |- context [py_split ?s] =>
      let r := eval vm_compute in (py_split s) in
      change (py_split s) with r
  end.

Lemma malformed_notation_raises_witness :
  set_from_board_str Piece.EMPTY (py "9/9/9/9/9 W - -") = Raise ValueError /\
  set_from_board_str Piece.EMPTY (py "W9/9/9/9/9 W - - 0") = Raise IndexError /\
  set_from_board_str Piece.EMPTY (py "100000008/9/9/9/9 W - - 0")
  = Raise IndexError /\
  set_from_board_str Piece.EMPTY (py "9/9/9/9/9 W Q - 0") = Raise KeyError /\
  set_from_board_str Piece.EMPTY (py "9/9/9/9/9 W - A1,J1 0")
  = Raise InvalidPosition /\
  set_from_board_str Piece.EMPTY (py "9/9/9/9/9 W - - x") = Raise ValueError.
Proof.
  split; [|split; [|split; [|split; [|split]]]];
    match goal with
    | |- set_from_board_str ?p ?s = _ =>
        apply (proj2 (malformed_notation_raises p s)); split_notation
    end.
  - apply first_field_count. vm_compute. lia.
  - apply (first_row_overrun _ _ _ _ _ _ (py "W9"));
      [vm_compute; reflexivity | left; reflexivity | vm_compute; reflexivity].
  - apply (first_row_overrun _ _ _ _ _ _ (py "100000008"));
      [vm_compute; reflexivity | left; reflexivity | vm_compute; reflexivity].
  - eapply first_direction; [vm_compute; reflexivity | discriminate |].
    intros x H. destruct x; vm_compute in H; discriminate H.
  - eapply (first_label _ _ _ _ _ _ _ _ (py "J1"));
      [vm_compute; reflexivity | vm_compute; reflexivity | discriminate
      | right; left; reflexivity |].
    exists InvalidPosition. vm_compute. reflexivity.
  - eapply first_half_moves;
      [vm_compute; reflexivity | vm_compute; reflexivity
      | vm_compute; reflexivity |].
    exists ValueError. vm_compute. reflexivity.
Defined.

(** C5, as stated, fails twice over.  No one error is raised: a missing
    field raises ValueError, an unknown direction KeyError, a piece stored
    beyond the last column IndexError, and the code defines no error of its
    own.  And an overrun need not raise at all: in the grammar of the spec
    the first row of "45/9/9/9/9 W - - 0" is the one token 45, a run of 45
    columns on a board of 9, yet the decoder reads the digits one by one
    (4 columns, then 5) and returns the empty board, whatever fills a fresh
    grid; likewise the row 90 is read as 9 columns and then a 0 that stores
    nothing. *)
Lemma malformed_notation_counterexample :
  let empty_board :=
    mkState (replicate BOARD_ROWS (replicate BOARD_COLS Piece.EMPTY))
      Piece.WHITE Direction.X
      (replicate BOARD_ROWS (replicate BOARD_COLS false)) 0 in
  (malformed (py_split (py "9/9/9/9/9 W - -")) /\
   set_from_board_str Piece.EMPTY (py "9/9/9/9/9 W - -") = Raise ValueError) /\
  (malformed (py_split (py "9/9/9/9/9 W Q - 0")) /\
   set_from_board_str Piece.EMPTY (py "9/9/9/9/9 W Q - 0") = Raise KeyError) /\
  (malformed (py_split (py "W9/9/9/9/9 W - - 0")) /\
   set_from_board_str Piece.EMPTY (py "W9/9/9/9/9 W - - 0") = Raise IndexError) /\
  ~ (exists e, forall s,
        malformed (py_split s) ->
        set_from_board_str Piece.EMPTY s = Raise e) /\
  split_on "/" (py "45/9/9/9/9") = [py "45"; py "9"; py "9"; py "9"; py "9"] /\
  Z.of_nat BOARD_COLS < grammar_width (py "45") 0 /\
  set_from_board_str Piece.EMPTY (py "45/9/9/9/9 W - - 0") = Ok empty_board /\
  set_from_board_str Piece.WHITE (py "45/9/9/9/9 W - - 0") = Ok empty_board /\
  set_from_board_str Piece.BLACK (py "45/9/9/9/9 W - - 0") = Ok empty_board /\
  ~ fails (set_from_board_str Piece.EMPTY (py "45/9/9/9/9 W - - 0")) /\
  Z.of_nat BOARD_COLS < grammar_width (py "90") 0 /\
  set_from_board_str Piece.EMPTY (py "90/9/9/9/9 W - - 0") = Ok empty_board /\
  set_from_board_str Piece.WHITE (py "90/9/9/9/9 W - - 0") = Ok empty_board /\
  set_from_board_str Piece.BLACK (py "90/9/9/9/9 W - - 0") = Ok empty_board.
Proof.
  intros empty_board.
  assert (M1 : malformed (py_split (py "9/9/9/9/9 W - -"))).
  { split_notation. apply wrong_field_count. vm_compute. lia. }
  assert (M2 : malformed (py_split (py "9/9/9/9/9 W Q - 0"))).
  { split_notation. apply unknown_direction; [discriminate|].
    intros x H. destruct x; vm_compute in H; discriminate H. }
  assert (M3 : malformed (py_split (py "W9/9/9/9/9 W - - 0"))).
  { split_notation. apply (row_overrun _ _ _ _ _ (py "W9"));
      [left; reflexivity | vm_compute; lia]. }
  assert (E1 : set_from_board_str Piece.EMPTY (py "9/9/9/9/9 W - -")
               = Raise ValueError) by (vm_compute; reflexivity).
  assert (E2 : set_from_board_str Piece.EMPTY (py "9/9/9/9/9 W Q - 0")
               = Raise KeyError) by (vm_compute; reflexivity).
  assert (E : set_from_board_str Piece.EMPTY (py "45/9/9/9/9 W - - 0")
              = Ok empty_board) by (vm_compute; reflexivity).
  split; [by split|]. split; [by split|].
  split; [split; [exact M3 | vm_compute; reflexivity]|].
  split.
  { intros [e He]. pose proof (He _ M1) as H1. pose proof (He _ M2) as H2.
    rewrite E1 in H1. rewrite E2 in H2. congruence. }
  split; [vm_compute; reflexivity|]. split; [vm_compute; reflexivity|].
  split; [exact E|].
  split; [vm_compute; reflexivity|]. split; [vm_compute; reflexivity|].
  split; [rewrite E; apply fails_not_ok|].
  repeat split; vm_compute; reflexivity.
Qed.
